(** * ALS (Astro Live Stacker): ingestion core

    A shallow embedding of [als/model.py] and [als/io/input.py] and the
    properties of the natural-language specification that can be settled
    on it.

    Conventions of the embedding.
    - A Python call either returns, raises, or (in a single-threaded run)
      waits for ever: [Outcome].
    - [str] values are [string]s; a character is a code point below 256.
    - Python [int]s are [Z].
    - Objects that are mutated in place are threaded explicitly: a method
      takes the object and gives back the object after the call.
    - The [@log] decorator of [als.code_utilities] only traces calls and is
      left out; the calls to [_LOGGER] of the bodies are kept. *)

From Stdlib Require Import ZArith List String Ascii Bool Arith Lia Permutation.
Import ListNotations.
Local Open Scope string_scope.
Local Open Scope list_scope.
Local Open Scope nat_scope.

Set Implicit Arguments.

(** ** Python values and control *)

(** The exception classes that the two modules can meet.  [OSError] and the
    two LibRaw families have subclasses; one of each is kept so that
    [except] clauses are matched by class and not by equality. *)
Inductive PyExn : Type :=
| OSError
| FileNotFoundError
| PermissionError
| LibRawFatalError
| LibRawIOError
| LibRawNonFatalError
| LibRawFileUnsupportedError
| AssertionError
| IndexError
| ValueError
| AttributeError
| TypeError
| KeyError
| Full
| Empty.

Scheme Equality for PyExn.

(** Direct base class, among the classes above ([Exception] is [None]). *)
Definition base_class (e : PyExn) : option PyExn :=
  match e with
  | FileNotFoundError | PermissionError => Some OSError
  | LibRawIOError => Some LibRawFatalError
  | LibRawFileUnsupportedError => Some LibRawNonFatalError
  | _ => None
  end.

(** [isinstance(e, c)]: the hierarchy above has depth one. *)
Definition isinstance (e c : PyExn) : bool :=
  PyExn_beq e c ||
  match base_class e with
  | Some b => PyExn_beq b c
  | None => false
  end.

Inductive Outcome (A : Type) : Type :=
| Returned (a : A)
| Raised (e : PyExn)
| Blocked.

Arguments Returned {A} a.
Arguments Raised {A} e.
Arguments Blocked {A}.

(** [len(s)] *)
Definition len (s : string) : Z := Z.of_nat (String.length s).

(** [s[i]] on a [str]: negative indices count from the end. *)
Definition str_getitem (s : string) (i : Z) : Outcome ascii :=
  let j := if (i <? 0)%Z then (i + len s)%Z else i in
  if ((0 <=? j) && (j <? len s))%Z
  then match String.get (Z.to_nat j) s with
       | Some c => Returned c
       | None => Raised IndexError
       end
  else Raised IndexError.

(** [str.isspace] on one character, for code points below 256. *)
Definition isspace (c : ascii) : bool :=
  let n := nat_of_ascii c in
  ((9 <=? n) && (n <=? 13)) || ((28 <=? n) && (n <=? 32))
  || (n =? 133) || (n =? 160).

Fixpoint lstrip (s : string) : string :=
  match s with
  | String c tl => if isspace c then lstrip tl else s
  | EmptyString => EmptyString
  end.

(** [rstrip]: a character stays when it is not a space or when something
    stays after it. *)
Fixpoint rstrip (s : string) : string :=
  match s with
  | String c tl =>
      match rstrip tl with
      | EmptyString => if isspace c then EmptyString else String c EmptyString
      | kept => String c kept
      end
  | EmptyString => EmptyString
  end.

(** [s.strip()] *)
Definition strip (s : string) : string := rstrip (lstrip s).

(** [str.lower] on one character, for code points below 256. *)
Definition lower_char (c : ascii) : ascii :=
  let n := nat_of_ascii c in
  if ((65 <=? n) && (n <=? 90))
     || ((192 <=? n) && (n <=? 222) && negb (n =? 215))
  then ascii_of_nat (n + 32)
  else c.

Fixpoint lower (s : string) : string :=
  match s with
  | String c tl => String (lower_char c) (lower tl)
  | EmptyString => EmptyString
  end.

(** [s.rfind(c)] for a one-character needle: the last position of [c], or
    [-1]. *)
Fixpoint rfind (c : ascii) (s : string) : Z :=
  match s with
  | EmptyString => (-1)%Z
  | String d tl =>
      let r := rfind c tl in
      if (0 <=? r)%Z then (r + 1)%Z
      else if Ascii.eqb c d then 0%Z else (-1)%Z
  end.

(** [s[i:]] for [0 <= i]. *)
Definition slice_from (i : Z) (s : string) : string :=
  substring (Z.to_nat i) (String.length s - Z.to_nat i) s.

(** [x in l] on a list of [str]. *)
Definition str_in (x : string) (l : list string) : bool :=
  existsb (String.eqb x) l.

(** [min(l)] and [max(l)]: [ValueError] on an empty sequence. *)
Definition py_min (l : list Z) : Outcome Z :=
  match l with
  | [] => Raised ValueError
  | x :: tl => Returned (fold_left Z.min tl x)
  end.

Definition py_max (l : list Z) : Outcome Z :=
  match l with
  | [] => Raised ValueError
  | x :: tl => Returned (fold_left Z.max tl x)
  end.

(** [l.remove(x)]: drops the first occurrence, [ValueError] when absent. *)
Fixpoint list_remove (x : Z) (l : list Z) : Outcome (list Z) :=
  match l with
  | [] => Raised ValueError
  | y :: tl =>
      if (x =? y)%Z then Returned tl
      else match list_remove x tl with
           | Returned tl' => Returned (y :: tl')
           | Raised e => Raised e
           | Blocked => Blocked
           end
  end.

(** ** [queue.Queue] of the Python standard library *)

Module Queue.
Section Queue.
Variable A : Type.

Record t : Type := mk { maxsize : Z; items : list A }.

(** [Queue(maxsize)]; [maxsize <= 0] means unbounded. *)
Definition init (maxsize : Z) : t := mk maxsize [].

Definition qsize (q : t) : Z := Z.of_nat (List.length (items q)).

Definition empty (q : t) : bool := (qsize q =? 0)%Z.

(** [Queue.put(item, block, timeout)].  With nobody else to take an item
    out, waiting for a free slot without a timeout never ends, and
    waiting with one ends in [Full]. *)
Definition put (q : t) (item : A) (block : bool) (timeout : option Z)
  : Outcome unit * t :=
  let refused : option (Outcome unit) :=
    if (0 <? maxsize q)%Z then
      if negb block then
        if (maxsize q <=? qsize q)%Z then Some (Raised Full) else None
      else
        match timeout with
        | None => if (maxsize q <=? qsize q)%Z then Some Blocked else None
        | Some tm =>
            if (tm <? 0)%Z then Some (Raised ValueError)
            else if (maxsize q <=? qsize q)%Z then Some (Raised Full)
                 else None
        end
    else None in
  match refused with
  | Some o => (o, q)
  | None => (Returned tt, mk (maxsize q) (items q ++ [item]))
  end.

(** [Queue.get(block, timeout)]. *)
Definition get (q : t) (block : bool) (timeout : option Z)
  : Outcome A * t :=
  let refused : option (Outcome A) :=
    if negb block then
      if empty q then Some (Raised Empty) else None
    else
      match timeout with
      | None => if empty q then Some Blocked else None
      | Some tm =>
          if (tm <? 0)%Z then Some (Raised ValueError)
          else if empty q then Some (Raised Empty) else None
      end in
  match refused, items q with
  | Some o, _ => (o, q)
  | None, item :: rest => (Returned item, mk (maxsize q) rest)
  | None, [] => (Raised IndexError, q)
  end.

(** [Queue.put_nowait] and [Queue.get_nowait] are written in terms of
    [self.put] and [self.get]:
<<
    def put_nowait(self, item): return self.put(item, block=False)
    def get_nowait(self):       return self.get(block=False)
>>
    so a subclass that overrides [put] or [get] is called back.  [Self]
    is the type of the receiving object and [self_put], [self_get] are
    its own methods. *)
Definition put_nowait (Self : Type)
    (self_put : Self -> A -> bool -> option Z -> Outcome unit * Self)
    (self : Self) (item : A) : Outcome unit * Self :=
  self_put self item false None.

Definition get_nowait (Self : Type)
    (self_get : Self -> bool -> option Z -> Outcome A * Self)
    (self : Self) : Outcome A * Self :=
  self_get self false None.

End Queue.

Arguments init {A} maxsize.
Arguments put_nowait {A Self} self_put self item.
Arguments get_nowait {A Self} self_get self.
End Queue.

(** ** [als.model.SignalingQueue] *)

Inductive Signal : Type :=
| item_pushed_signal (size : Z)
| item_popped_signal (size : Z).

Module SignalingQueue.
Section SignalingQueue.
Variable A : Type.

(** The [Queue] part of the object and, in order of emission, the signals
    it has emitted so far. *)
Record t : Type := mk { base : Queue.t A; emitted : list Signal }.

Definition init (maxsize : Z) : t := mk (Queue.init maxsize) [].

Definition qsize (q : t) : Z := Queue.qsize (base q).

Definition emit (s : Signal) (q : t) : t :=
  mk (base q) (emitted q ++ [s]).

Definition get (q : t) (block : bool) (timeout : option Z)
  : Outcome A * t :=
  match Queue.get (base q) block timeout with
  | (Returned item, b) =>
      let q1 := mk b (emitted q) in
      (Returned item, emit (item_popped_signal (qsize q1)) q1)
  | (o, b) => (o, mk b (emitted q))
  end.

Definition put (q : t) (item : A) (block : bool) (timeout : option Z)
  : Outcome unit * t :=
  match Queue.put (base q) item block timeout with
  | (Returned u, b) =>
      let q1 := mk b (emitted q) in
      (Returned u, emit (item_pushed_signal (qsize q1)) q1)
  | (o, b) => (o, mk b (emitted q))
  end.

(** [super().get_nowait()] is [Queue.get_nowait], which calls [self.get]:
    the [get] above. *)
Definition get_nowait (q : t) : Outcome A * t :=
  match Queue.get_nowait get q with
  | (Returned item, q1) =>
      (Returned item, emit (item_popped_signal (qsize q1)) q1)
  | (o, q1) => (o, q1)
  end.

Definition put_nowait (q : t) (item : A) : Outcome unit * t :=
  match Queue.put_nowait put q item with
  | (Returned u, q1) =>
      (Returned u, emit (item_pushed_signal (qsize q1)) q1)
  | (o, q1) => (o, q1)
  end.

(** One call of the public interface. *)
Inductive Op : Type :=
| OpPut (item : A) (block : bool) (timeout : option Z)
| OpPutNowait (item : A)
| OpGet (block : bool) (timeout : option Z)
| OpGetNowait.

(** What a call gave back: the dequeued item, if it is a dequeue that
    returned. *)
Inductive Reply : Type :=
| Enqueued
| Dequeued (item : A)
| Failed.

Definition step (q : t) (op : Op) : Reply * t :=
  match op with
  | OpPut item block timeout =>
      match put q item block timeout with
      | (Returned _, q1) => (Enqueued, q1)
      | (_, q1) => (Failed, q1)
      end
  | OpPutNowait item =>
      match put_nowait q item with
      | (Returned _, q1) => (Enqueued, q1)
      | (_, q1) => (Failed, q1)
      end
  | OpGet block timeout =>
      match get q block timeout with
      | (Returned item, q1) => (Dequeued item, q1)
      | (_, q1) => (Failed, q1)
      end
  | OpGetNowait =>
      match get_nowait q with
      | (Returned item, q1) => (Dequeued item, q1)
      | (_, q1) => (Failed, q1)
      end
  end.

Fixpoint run (q : t) (ops : list Op) : list Reply * t :=
  match ops with
  | [] => ([], q)
  | op :: rest =>
      let (r, q1) := step q op in
      let (rs, q2) := run q1 rest in
      (r :: rs, q2)
  end.

End SignalingQueue.

Arguments init {A} maxsize.
Arguments OpPutNowait {A} item.
Arguments OpGetNowait {A}.
Arguments OpPut {A} item block timeout.
Arguments OpGet {A} block timeout.
Arguments Enqueued {A}.
Arguments Dequeued {A} item.
Arguments Failed {A}.
End SignalingQueue.

(** Sequencing of calls that may raise. *)
Definition bindO (A B : Type) (o : Outcome A) (k : A -> Outcome B)
  : Outcome B :=
  match o with
  | Returned a => k a
  | Raised e => Raised e
  | Blocked => Blocked
  end.

(** ** [als.model.Image] *)

(** A numpy array: its shape and, flattened, its samples. *)
Record ndarray : Type := { shape : list Z; buffer : list Z }.

Definition ndim (a : ndarray) : Z := Z.of_nat (List.length (shape a)).

(** [numpy.moveaxis] and what it is made of.  An axis outside
    [-ndim .. ndim-1] is numpy's [AxisError], here [None]. *)

Definition normalize_axis_index (axis n : Z) : option Z :=
  if ((- n <=? axis) && (axis <? n))%Z
  then Some (if (axis <? 0)%Z then (axis + n)%Z else axis)
  else None.

(** [l.insert(i, x)] for [0 <= i]: at the end when [i] is beyond it. *)
Fixpoint list_insert (A : Type) (i : nat) (x : A) (l : list A) : list A :=
  match i, l with
  | O, _ => x :: l
  | S i', y :: tl => y :: list_insert i' x tl
  | S _, [] => [x]
  end.

(** The number of samples that a shape holds. *)
Definition size_of (shape : list Z) : Z := fold_right Z.mul 1%Z shape.

(** The position in the flattened array of the sample at [index], and the
    index of the sample at a position, rows first. *)
Fixpoint ravel (index shape : list Z) : Z :=
  match index, shape with
  | i :: index', _ :: shape' => (i * size_of shape' + ravel index' shape')%Z
  | _, _ => 0%Z
  end.

Fixpoint unravel (position : Z) (shape : list Z) : list Z :=
  match shape with
  | [] => []
  | d :: shape' =>
      ((position / size_of shape') mod d)%Z :: unravel position shape'
  end.

(** [a.transpose(order)]: axis [i] of the result is axis [order[i]] of
    [a]. *)
Definition transpose (a : ndarray) (order : list nat) : ndarray :=
  let shape' := map (fun axis => nth axis (shape a) 0%Z) order in
  let source_index (index' : list Z) : list Z :=
    map (fun axis =>
           match find (fun p => Nat.eqb (snd p) axis)
                      (combine index' order) with
           | Some p => fst p
           | None => 0%Z
           end)
        (seq 0 (List.length (shape a))) in
  {| shape := shape';
     buffer :=
       map (fun position =>
              nth (Z.to_nat (ravel (source_index
                                      (unravel (Z.of_nat position) shape'))
                                   (shape a)))
                  (buffer a) 0%Z)
           (seq 0 (Z.to_nat (size_of shape'))) |}.

Definition moveaxis (a : ndarray) (source destination : Z)
  : option ndarray :=
  match normalize_axis_index source (ndim a),
        normalize_axis_index destination (ndim a) with
  | Some src, Some dst =>
      let order :=
        filter (fun n => negb (Nat.eqb n (Z.to_nat src)))
               (seq 0 (List.length (shape a))) in
      Some (transpose a (list_insert (Z.to_nat dst) (Z.to_nat src) order))
  | _, _ => None
  end.

(** [shape.index(x)] for an [x] that is in [shape]. *)
Fixpoint index_of (x : Z) (shape : list Z) : Z :=
  match shape with
  | [] => 0%Z
  | y :: tl => if (x =? y)%Z then 0%Z else (1 + index_of x tl)%Z
  end.

Module Image.

Record t : Type := mk {
  _data : ndarray;
  _bayer_pattern : option string;
  _origin : string;
  _destination : string
}.

Definition init (data : ndarray) : t :=
  mk data None "UNDEFINED" "UNDEFINED".

Definition set_destination (self : t) (destination : string) : t :=
  mk (_data self) (_bayer_pattern self) (_origin self) destination.

Definition set_data (self : t) (data : ndarray) : t :=
  mk data (_bayer_pattern self) (_origin self) (_destination self).

Definition set_origin (self : t) (origin : string) : t :=
  mk (_data self) (_bayer_pattern self) origin (_destination self).

Definition set_bayer_pattern (self : t) (bayer_pattern : option string)
  : t :=
  mk (_data self) bayer_pattern (_origin self) (_destination self).

Definition clone (self : t) : t :=
  let new := init (_data self) in
  let new := set_bayer_pattern new (_bayer_pattern self) in
  let new := set_origin new (_origin self) in
  set_destination new (_destination self).

Definition dimensions (self : t) : Outcome (list Z) :=
  if (ndim (_data self) =? 2)%Z then Returned (shape (_data self))
  else
    let dimensions := shape (_data self) in
    bindO (py_min dimensions) (fun m => list_remove m dimensions).

Definition width (self : t) : Outcome Z :=
  bindO (dimensions self) py_max.

Definition height (self : t) : Outcome Z :=
  bindO (dimensions self) py_min.

Definition needs_debayering (self : t) : bool :=
  match _bayer_pattern self with
  | Some _ => (ndim (_data self) <? 3)%Z
  | None => false
  end.

Definition is_color (self : t) : bool := (2 <? ndim (_data self))%Z.

Definition is_bw (self : t) : bool :=
  (ndim (_data self) =? 2)%Z &&
  match _bayer_pattern self with
  | None => true
  | Some _ => false
  end.

Fixpoint shape_eqb (s1 s2 : list Z) : bool :=
  match s1, s2 with
  | [], [] => true
  | x :: t1, y :: t2 => (x =? y)%Z && shape_eqb t1 t2
  | _, _ => false
  end.

Definition is_same_shape_as (self other : t) : bool :=
  shape_eqb (shape (_data self)) (shape (_data other)).

(** [set_color_axis_as]; [None] is numpy's [AxisError] leaving the call,
    [Some] is the image after a call that returned.  [min(shape)] cannot
    fail where it is called: the shape has more than two extents. *)
Definition set_color_axis_as (self : t) (wanted_axis : Z) : option t :=
  if (2 <? ndim (_data self))%Z then
    let shape := shape (_data self) in
    let smallest :=
      match py_min shape with Returned m => m | _ => 0%Z end in
    let color_axis := index_of smallest shape in
    if negb (color_axis =? wanted_axis)%Z then
      match moveaxis (_data self) color_axis wanted_axis with
      | Some data => Some (set_data self data)
      | None => None
      end
    else Some self
  else Some self.

End Image.

(** ** [als.model.Session] *)

Module Session.

Definition stopped : Z := 0.
Definition running : Z := 1.
Definition paused : Z := 2.

Definition _ALLOWED_STATUSES : list Z := [stopped; running; paused].

(** [status in Session._ALLOWED_STATUSES] *)
Definition allowed (status : Z) : bool :=
  existsb (Z.eqb status) _ALLOWED_STATUSES.

(** The [_status] attribute, [None] as long as nothing has assigned it. *)
Record t : Type := mk { _status : option Z }.

(** [Session(status)]: a status that is not allowed is not stored. *)
Definition init (status : Z) : t :=
  if allowed status then mk (Some status) else mk None.

(** Reading [self._status]. *)
Definition get_status (self : t) : Outcome Z :=
  match _status self with
  | Some status => Returned status
  | None => Raised AttributeError
  end.

Definition is_running (self : t) : Outcome bool :=
  bindO (get_status self) (fun status => Returned (status =? running)%Z).

Definition is_stopped (self : t) : Outcome bool :=
  bindO (get_status self) (fun status => Returned (status =? stopped)%Z).

Definition is_paused (self : t) : Outcome bool :=
  bindO (get_status self) (fun status => Returned (status =? paused)%Z).

(** [set_status]; [emit] is what [Session.status_changed_signal.emit()]
    does, which is left to Qt. *)
Definition set_status (emit : Outcome unit) (self : t) (status : Z)
  : Outcome unit * t :=
  if allowed status then (emit, mk (Some status)) else (Returned tt, self).

End Session.

(** ** [als.model.DataStore] *)

Definition STACKING_MODE_SUM : string := "Sum".
Definition STACKING_MODE_MEAN : string := "Mean".

(** A registered observer: who it is, and what a call of its
    [update_according_to_app_state] does. *)
Record Observer : Type := {
  ident : nat;
  update_according_to_app_state : Outcome unit
}.

Module DataStore.

(** The attributes of a [DataStore].  [refreshed] is not one of them: it
    lists, in order, the observers whose refresh has been called. *)
Record t : Type := mk {
  _observers : list Observer;
  _session_is_started : bool;
  _session_is_stopped : bool;
  _session_is_paused : bool;
  _web_server_is_running : bool;
  _stacking_mode : string;
  _align_before_stacking : bool;
  _process_result : option Image.t;
  _input_queue : SignalingQueue.t Image.t;
  _stack_queue : SignalingQueue.t Image.t;
  _process_queue : SignalingQueue.t Image.t;
  _save_queue : SignalingQueue.t Image.t;
  refreshed : list nat
}.

Definition init : t :=
  mk [] false true false false "" true None
     (SignalingQueue.init 0) (SignalingQueue.init 0)
     (SignalingQueue.init 0) (SignalingQueue.init 0) [].

Definition with_session (self : t) (started stopped paused : bool) : t :=
  mk (_observers self) started stopped paused
     (_web_server_is_running self) (_stacking_mode self)
     (_align_before_stacking self) (_process_result self)
     (_input_queue self) (_stack_queue self) (_process_queue self)
     (_save_queue self) (refreshed self).

Definition with_observers (self : t) (observers : list Observer) : t :=
  mk observers (_session_is_started self) (_session_is_stopped self)
     (_session_is_paused self) (_web_server_is_running self)
     (_stacking_mode self) (_align_before_stacking self)
     (_process_result self) (_input_queue self) (_stack_queue self)
     (_process_queue self) (_save_queue self) (refreshed self).

Definition with_refreshed (self : t) (who : nat) : t :=
  mk (_observers self) (_session_is_started self)
     (_session_is_stopped self) (_session_is_paused self)
     (_web_server_is_running self) (_stacking_mode self)
     (_align_before_stacking self) (_process_result self)
     (_input_queue self) (_stack_queue self) (_process_queue self)
     (_save_queue self) (refreshed self ++ [who]).

Definition stacking_mode (self : t) : string := _stacking_mode self.

Definition with_stacking_mode (self : t) (mode : string) : t :=
  mk (_observers self) (_session_is_started self)
     (_session_is_stopped self) (_session_is_paused self)
     (_web_server_is_running self) mode
     (_align_before_stacking self) (_process_result self)
     (_input_queue self) (_stack_queue self) (_process_queue self)
     (_save_queue self) (refreshed self).

(** The [stacking_mode] setter. *)
Definition set_stacking_mode (self : t) (text : string) : t :=
  if str_in (strip text) [STACKING_MODE_MEAN; STACKING_MODE_SUM]
  then with_stacking_mode self text
  else with_stacking_mode self STACKING_MODE_MEAN.

Definition session_is_started (self : t) : bool := _session_is_started self.
Definition session_is_stopped (self : t) : bool := _session_is_stopped self.
Definition session_is_paused (self : t) : bool := _session_is_paused self.

(** The loop of [_notify_observers]: an observer that raises ends it. *)
Fixpoint notify_loop (observers : list Observer) (self : t)
  : Outcome unit * t :=
  match observers with
  | [] => (Returned tt, self)
  | observer :: rest =>
      let self1 := with_refreshed self (ident observer) in
      match update_according_to_app_state observer with
      | Returned _ => notify_loop rest self1
      | o => (o, self1)
      end
  end.

Definition _notify_observers (self : t) : Outcome unit * t :=
  notify_loop (_observers self) self.

Definition record_session_start (self : t) : Outcome unit * t :=
  _notify_observers (with_session self true false false).

Definition record_session_stop (self : t) : Outcome unit * t :=
  _notify_observers (with_session self false true false).

Definition record_session_pause (self : t) : Outcome unit * t :=
  _notify_observers (with_session self false false true).

Definition add_observer (self : t) (observer : Observer) : t :=
  with_observers self (_observers self ++ [observer]).

(** The three transition operations, as calls. *)
Inductive Transition : Type := Start | Stop | Pause.

Definition call (self : t) (c : Transition) : Outcome unit * t :=
  match c with
  | Start => record_session_start self
  | Stop => record_session_stop self
  | Pause => record_session_pause self
  end.

(** A sequence of calls; a caller may or may not go on after a call that
    raised, so the whole sequence is run whatever each call did. *)
Fixpoint calls (self : t) (cs : list Transition) : t :=
  match cs with
  | [] => self
  | c :: rest => calls (snd (call self c)) rest
  end.

Definition process_result (self : t) : option Image.t :=
  _process_result self.

Definition set_process_result (self : t) (image : option Image.t) : t :=
  mk (_observers self) (_session_is_started self)
     (_session_is_stopped self) (_session_is_paused self)
     (_web_server_is_running self) (_stacking_mode self)
     (_align_before_stacking self) image
     (_input_queue self) (_stack_queue self) (_process_queue self)
     (_save_queue self) (refreshed self).

Definition align_before_stacking (self : t) : bool :=
  _align_before_stacking self.

Definition set_align_before_stacking (self : t) (align : bool) : t :=
  mk (_observers self) (_session_is_started self)
     (_session_is_stopped self) (_session_is_paused self)
     (_web_server_is_running self) (_stacking_mode self)
     align (_process_result self)
     (_input_queue self) (_stack_queue self) (_process_queue self)
     (_save_queue self) (refreshed self).

Definition web_server_is_running (self : t) : bool :=
  _web_server_is_running self.

Definition with_web_server_is_running (self : t) (running : bool) : t :=
  mk (_observers self) (_session_is_started self)
     (_session_is_stopped self) (_session_is_paused self)
     running (_stacking_mode self)
     (_align_before_stacking self) (_process_result self)
     (_input_queue self) (_stack_queue self) (_process_queue self)
     (_save_queue self) (refreshed self).

(** The [web_server_is_running] setter. *)
Definition set_web_server_is_running (self : t) (running : bool)
  : Outcome unit * t :=
  _notify_observers (with_web_server_is_running self running).

(** [list.remove] on the observers: an observer equals itself only. *)
Fixpoint remove_first (who : nat) (observers : list Observer)
  : Outcome (list Observer) :=
  match observers with
  | [] => Raised ValueError
  | o :: rest =>
      if ident o =? who then Returned rest
      else bindO (remove_first who rest) (fun rest' => Returned (o :: rest'))
  end.

Definition remove_observer (self : t) (observer : Observer)
  : Outcome unit * t :=
  match remove_first (ident observer) (_observers self) with
  | Returned observers => (Returned tt, with_observers self observers)
  | Raised e => (Raised e, self)
  | Blocked => (Blocked, self)
  end.

End DataStore.

(** ** [pathlib.Path], POSIX flavour *)

Module Path.

(** A parsed path: its root ([""], ["/"] or ["//"]) and the components
    after it. *)
Record t : Type := mk { anchor : string; parts : list string }.

Fixpoint split_slash (s : string) (current : string) : list string :=
  match s with
  | EmptyString => [current]
  | String c tl =>
      if Ascii.eqb c "/"%char then current :: split_slash tl ""
      else split_slash tl (current ++ String c "")
  end.

(** [Path(s)]: empty components and ["."] are dropped. *)
Definition of_string (s : string) : t :=
  let root :=
    if String.prefix "//" s && negb (String.prefix "///" s) then "//"
    else if String.prefix "/" s then "/" else "" in
  mk root
     (filter (fun c => negb (String.eqb c "" || String.eqb c "."))
             (split_slash s "")).

(** [path.name]: the final component, [""] when there is none. *)
Definition name (p : t) : string := last (parts p) "".

(** [path.suffix] *)
Definition suffix (p : t) : string :=
  let name := name p in
  let i := rfind "."%char name in
  if ((0 <? i) && (i <? len name - 1))%Z then slice_from i name else "".

End Path.

(** ** [als.io.input] *)

Module Input.

(** What [astropy.io.fits] gives for one header/data unit. *)
Record HDU : Type := { data : ndarray; header : list (string * string) }.

(** What [rawpy] gives for an opened file; [color_desc] is the text that
    [raw_image.color_desc.decode()] returns. *)
Record RawPy : Type := {
  raw_pattern : option (list (list Z));
  color_desc : string;
  raw_image_visible : ndarray
}.

(** Everything outside the process: the configuration, the file system
    and the two decoding libraries.  [file_size p n] is what the [n]-th
    [QFileInfo(p).size()] of a creation event reads; Qt gives a size that
    is not negative, 0 for a file that is not there. *)
Record World : Type := {
  get_scan_folder_path : string;
  resolve : Path.t -> string;
  fits_open : string -> Outcome (list HDU);
  rawpy_imread : string -> Outcome RawPy;
  file_size : string -> nat -> N
}.

Inductive Level : Type := DEBUG | INFO | ERROR.

Inductive Message : Type :=
| FolderScannerStarted
| StoppingFolderScanner
| FolderScannerStopped
| FileMoveDetected (image_path : string)
| FileCreationDetected (image_path : string)
| FileSize (image_path : string) (size : N)
| FileFullyWritten (image_path : string)
| InputQueuePurged
| InputQueueSize (size : Z)
| SuccessfulImageRead (file_path_str : string)
| ErrorReadingFromFile (file_path_str : string) (error : PyExn).

Inductive Reader : Type := FitReader | RawReader.

(** The mutable state that the module works on: the scanner's
    [_observer] (the folder it is scheduled on), [STORE.scan_in_progress],
    the module's [_IMAGE_INPUT_QUEUE], what went to [_LOGGER], and which
    reader was entered for which path. *)
Record State : Type := mkState {
  _observer : option string;
  scan_in_progress : bool;
  _IMAGE_INPUT_QUEUE : Queue.t Image.t;
  logged : list (Level * Message);
  reader_calls : list (Reader * Path.t)
}.

Definition initial : State :=
  mkState None false (Queue.init 0) [] [].

Definition M (A : Type) : Type := State -> Outcome A * State.

Definition ret (A : Type) (a : A) : M A := fun s => (Returned a, s).

Definition bind (A B : Type) (m : M A) (k : A -> M B) : M B :=
  fun s =>
    match m s with
    | (Returned a, s1) => k a s1
    | (Raised e, s1) => (Raised e, s1)
    | (Blocked, s1) => (Blocked, s1)
    end.

Definition lift (A : Type) (o : Outcome A) : M A := fun s => (o, s).

(** [try: body / except ...: handler]: [handler e] is [None] when no
    clause matches [e]. *)
Definition try_except (A : Type) (body : M A)
    (handler : PyExn -> option (M A)) : M A :=
  fun s =>
    match body s with
    | (Raised e, s1) =>
        match handler e with
        | Some h => h s1
        | None => (Raised e, s1)
        end
    | r => r
    end.

Notation "x <- m ;; k" := (bind m (fun x => k))
  (at level 61, m at next level, right associativity).
Notation "m ;;; k" := (bind m (fun _ => k))
  (at level 61, right associativity).

Definition log_ (level : Level) (msg : Message) : M unit :=
  fun s =>
    (Returned tt,
     mkState (_observer s) (scan_in_progress s) (_IMAGE_INPUT_QUEUE s)
             (logged s ++ [(level, msg)]) (reader_calls s)).

Definition enter (r : Reader) (path : Path.t) : M unit :=
  fun s =>
    (Returned tt,
     mkState (_observer s) (scan_in_progress s) (_IMAGE_INPUT_QUEUE s)
             (logged s) (reader_calls s ++ [(r, path)])).

Definition set_observer (o : option string) : M unit :=
  fun s =>
    (Returned tt,
     mkState o (scan_in_progress s) (_IMAGE_INPUT_QUEUE s)
             (logged s) (reader_calls s)).

Definition set_scan_in_progress (b : bool) : M unit :=
  fun s =>
    (Returned tt,
     mkState (_observer s) b (_IMAGE_INPUT_QUEUE s)
             (logged s) (reader_calls s)).

Definition with_queue (s : State) (q : Queue.t Image.t) : State :=
  mkState (_observer s) (scan_in_progress s) q (logged s) (reader_calls s).

(** [_IMAGE_INPUT_QUEUE.put(image)] *)
Definition queue_put (image : Image.t) : M unit :=
  fun s =>
    let (o, q) := Queue.put (_IMAGE_INPUT_QUEUE s) image true None in
    (o, with_queue s q).

(** [_IMAGE_INPUT_QUEUE.get()] *)
Definition queue_get : M Image.t :=
  fun s =>
    let (o, q) := Queue.get (_IMAGE_INPUT_QUEUE s) true None in
    (o, with_queue s q).

Definition _IGNORED_FILENAME_START_PATTERNS : list string :=
  ["."; "~"; "tmp"].

(** The bytes of a header card are not looked at: a header is the list of
    its keywords with their values. *)
Definition header_contains (key : string) (h : list (string * string))
  : bool :=
  existsb (fun kv => String.eqb (fst kv) key) h.

Definition header_getitem (key : string) (h : list (string * string))
  : Outcome string :=
  match find (fun kv => String.eqb (fst kv) key) h with
  | Some kv => Returned (snd kv)
  | None => Raised KeyError
  end.

(** Lines 248 to 252 of [_read_raw_image]: the loop, over the indices
    that are still to be read. *)
Fixpoint bayer_loop (n : Z) (color_desc : string) (todo : list Z)
    (bayer_pattern : string) : Outcome string :=
  match todo with
  | [] => Returned bayer_pattern
  | index :: rest =>
      if (index <? n)%Z then
        bindO (str_getitem color_desc index)
              (fun c => bayer_loop n color_desc rest
                                   (bayer_pattern ++ String c ""))
      else Raised AssertionError
  end.

Definition bayer_pattern_of (indices : list Z) (color_desc : string)
  : Outcome string :=
  if (Z.of_nat (List.length indices) =? len color_desc)%Z
  then bayer_loop (Z.of_nat (List.length indices)) color_desc indices ""
  else Raised AssertionError.

(** [raw_image.raw_pattern.flatten()]; rawpy gives [None] for a sensor
    without a Bayer tile. *)
Definition flatten (raw_pattern : option (list (list Z)))
  : Outcome (list Z) :=
  match raw_pattern with
  | Some rows => Returned (List.concat rows)
  | None => Raised AttributeError
  end.

(** The loop over the ignored prefixes, with its [break]. *)
Fixpoint ignore_loop (patterns : list string) (name : string) : bool :=
  match patterns with
  | [] => false
  | pattern :: rest =>
      if String.prefix pattern name then true else ignore_loop rest name
  end.

Record Event : Type := {
  event_type : string;
  src_path : string;
  dest_path : string
}.

Section WithWorld.
Variable w : World.

Definition _report_error (path : Path.t) (error : PyExn) : M unit :=
  log_ ERROR (ErrorReadingFromFile (resolve w path) error).

Definition _read_fit_image (path : Path.t) : M (option Image.t) :=
  enter FitReader path ;;;
  try_except
    (fit <- lift (fits_open w (resolve w path)) ;;
     hdu <- lift (match fit with
                  | hdu :: _ => Returned hdu
                  | [] => Raised IndexError
                  end) ;;
     let image := Image.init (data hdu) in
     if header_contains "BAYERPAT" (header hdu) then
       pat <- lift (header_getitem "BAYERPAT" (header hdu)) ;;
       ret (Some (Image.set_bayer_pattern image (Some pat)))
     else ret (Some image))
    (fun error =>
       if isinstance error OSError
       then Some (_report_error path error ;;; ret None)
       else None).

Definition _read_raw_image (path : Path.t) : M (option Image.t) :=
  enter RawReader path ;;;
  try_except
    (raw_image <- lift (rawpy_imread w (resolve w path)) ;;
     indices <- lift (flatten (raw_pattern raw_image)) ;;
     bayer_pattern <-
       lift (bayer_pattern_of indices (color_desc raw_image)) ;;
     let new_image := Image.init (raw_image_visible raw_image) in
     ret (Some (Image.set_bayer_pattern new_image (Some bayer_pattern))))
    (fun error =>
       if isinstance error LibRawNonFatalError
       then Some (_report_error path error ;;; ret None)
       else if isinstance error LibRawFatalError
       then Some (_report_error path error ;;; ret None)
       else None).

Definition read_image (path : Path.t) : M (option Image.t) :=
  let ignore_image :=
    ignore_loop _IGNORED_FILENAME_START_PATTERNS (Path.name path) in
  if negb ignore_image then
    image <- (if str_in (lower (Path.suffix path)) [".fit"; ".fits"]
              then _read_fit_image path
              else _read_raw_image path) ;;
    match image with
    | Some img =>
        let file_path_str := resolve w path in
        log_ INFO (SuccessfulImageRead file_path_str) ;;;
        ret (Some (Image.set_origin img ("FILE : " ++ file_path_str)))
    | None => ret None
    end
  else ret None.

Definition _enqueue_image (image : option Image.t) : M unit :=
  match image with
  | Some img =>
      queue_put img ;;;
      (fun s =>
         log_ INFO (InputQueueSize (Queue.qsize (_IMAGE_INPUT_QUEUE s)))
              s)
  | None => ret tt
  end.

(** What both handlers end with. *)
Definition ingest (image_path : string) : M unit :=
  image <- read_image (Path.of_string image_path) ;;
  _enqueue_image image.

Definition on_moved (event : Event) : M unit :=
  if String.eqb (event_type event) "moved" then
    let image_path := dest_path event in
    log_ DEBUG (FileMoveDetected image_path) ;;;
    ingest image_path
  else ret tt.

(** The [while file_is_incomplete] loop of [on_created], at its
    [poll]-th reading of the size; [None] when [fuel] readings did not
    end it. *)
Fixpoint wait_loop (fuel : nat) (image_path : string) (poll : nat)
    (last_file_size : Z) (s : State) : option State :=
  match fuel with
  | O => None
  | S fuel' =>
      let size := file_size w image_path poll in
      let s1 := snd (log_ DEBUG (FileSize image_path size) s) in
      if (Z.of_N size =? last_file_size)%Z
      then Some (snd (log_ DEBUG (FileFullyWritten image_path) s1))
      else wait_loop fuel' image_path (S poll) (Z.of_N size) s1
  end.

Definition on_created (fuel : nat) (event : Event) (s : State)
  : option (Outcome unit * State) :=
  if String.eqb (event_type event) "created" then
    let image_path := src_path event in
    let s1 := snd (log_ DEBUG (FileCreationDetected image_path) s) in
    match wait_loop fuel image_path 0 (-1) s1 with
    | Some s2 => Some (ingest image_path s2)
    | None => None
    end
  else Some (Returned tt, s).

Definition start : M unit :=
  set_observer (Some (get_scan_folder_path w)) ;;;
  log_ INFO FolderScannerStarted ;;;
  set_scan_in_progress true.

End WithWorld.

Definition _stop_observer : M unit :=
  fun s =>
    match _observer s with
    | Some _ =>
        (log_ INFO StoppingFolderScanner ;;;
         set_observer None ;;;
         log_ INFO FolderScannerStopped ;;;
         set_scan_in_progress false) s
    | None => (Returned tt, s)
    end.

(** The [while not _IMAGE_INPUT_QUEUE.empty()] loop of [_purge_queue];
    [None] when [fuel] turns did not end it. *)
Fixpoint purge_loop (fuel : nat) (s : State)
  : option (Outcome unit * State) :=
  match fuel with
  | O => None
  | S fuel' =>
      if Queue.empty (_IMAGE_INPUT_QUEUE s) then Some (Returned tt, s)
      else match queue_get s with
           | (Returned _, s1) => purge_loop fuel' s1
           | (Raised e, s1) => Some (Raised e, s1)
           | (Blocked, s1) => Some (Blocked, s1)
           end
  end.

Definition _purge_queue (fuel : nat) (s : State)
  : option (Outcome unit * State) :=
  match purge_loop fuel s with
  | Some (Returned _, s1) => Some (log_ INFO InputQueuePurged s1)
  | r => r
  end.

Definition pause : M unit := _stop_observer.

Definition stop (fuel : nat) (s : State) : option (Outcome unit * State) :=
  match _stop_observer s with
  | (Returned _, s1) => _purge_queue fuel s1
  | r => Some r
  end.

(** [n] calls of [_IMAGE_INPUT_QUEUE.get()], with what they returned. *)
Fixpoint dequeue (n : nat) (s : State) : list (Outcome Image.t) * State :=
  match n with
  | O => ([], s)
  | S n' =>
      let (o, s1) := queue_get s in
      let (os, s2) := dequeue n' s1 in
      (o :: os, s2)
  end.

End Input.

(** * Vocabulary of the statements and sample inputs *)

Import Input.

(** A world in which every RAW file decodes to the common DSLR tile. *)
Definition dslr_world : World := {|
  get_scan_folder_path := "/scan";
  resolve := fun p =>
    (Path.anchor p ++ String.concat "/" (Path.parts p))%string;
  fits_open := fun _ => Raised FileNotFoundError;
  rawpy_imread := fun _ =>
    Returned {| raw_pattern := Some [[0; 1]; [3; 2]]%Z;
                color_desc := "RGBG";
                raw_image_visible := {| shape := [4; 6]%Z; buffer := [] |} |};
  file_size := fun _ n => N.of_nat (Nat.min n 3)
|}.


Section Replies.
Variable A : Type.

(** The items of the calls that did enqueue, in the order of the calls. *)
Fixpoint enqueued (ops : list (SignalingQueue.Op A))
    (replies : list (SignalingQueue.Reply A)) : list A :=
  match ops, replies with
  | SignalingQueue.OpPut item _ _ :: ops', SignalingQueue.Enqueued :: rs
  | SignalingQueue.OpPutNowait item :: ops', SignalingQueue.Enqueued :: rs =>
      item :: enqueued ops' rs
  | _ :: ops', _ :: rs => enqueued ops' rs
  | _, _ => []
  end.

(** The items that the calls returned, in the order of the calls. *)
Fixpoint dequeued (replies : list (SignalingQueue.Reply A)) : list A :=
  match replies with
  | SignalingQueue.Dequeued item :: rs => item :: dequeued rs
  | _ :: rs => dequeued rs
  | [] => []
  end.
End Replies.

(** A one-dimensional array with a bayer pattern: what [_read_fit_image]
    builds from a FITS file whose primary unit has NAXIS = 1 and a BAYERPAT
    card. *)
Definition rank_1_mosaic : Image.t :=
  Image.set_bayer_pattern
    (Image.init {| shape := [5]%Z; buffer := [0; 0; 0; 0; 0]%Z |})
    (Some "RGGB").

(** A rank-2 image with more rows than columns. *)
Definition portrait : Image.t :=
  Image.init {| shape := [1000; 500]%Z; buffer := [] |}.

(** The three session flags, in the order started, stopped, paused. *)
Definition session_flags (self : DataStore.t) : bool * bool * bool :=
  (DataStore.session_is_started self,
   DataStore.session_is_stopped self,
   DataStore.session_is_paused self).

Definition flags_of (c : DataStore.Transition) : bool * bool * bool :=
  match c with
  | DataStore.Start => (true, false, false)
  | DataStore.Stop => (false, true, false)
  | DataStore.Pause => (false, false, true)
  end.

(** The state of the module after [count] readings of the size of
    [image_path], the first being the [from]-th. *)
Fixpoint polled (w : World) (image_path : string) (from count : nat)
    (s : State) : State :=
  match count with
  | O => s
  | S count' =>
      polled w image_path (S from) count'
        (snd (log_ DEBUG
                (FileSize image_path (file_size w image_path from)) s))
  end.

(** The state in which [on_created] starts to read the file, when the
    [k+1]-th reading was the first to repeat the one before it: the
    creation has been logged, then [k+2] sizes, then that the file is
    written. *)
Definition written_after (w : World) (image_path : string) (k : nat)
    (s : State) : State :=
  snd (log_ DEBUG (FileFullyWritten image_path)
         (polled w image_path 0 (k + 2)
            (snd (log_ DEBUG (FileCreationDetected image_path) s)))).

(** Readings [k] and [k+1] are the first two consecutive readings that are
    equal. *)
Definition first_equal_pair (sizes : nat -> N) (k : nat) : Prop :=
  sizes (S k) = sizes k /\ forall j, j < k -> sizes (S j) <> sizes j.

(** A world whose RAW files come from a sensor with a 6x6 colour tile. *)
Definition xtrans_world : World := {|
  get_scan_folder_path := "/scan";
  resolve := fun p =>
    (Path.anchor p ++ String.concat "/" (Path.parts p))%string;
  fits_open := fun _ => Raised FileNotFoundError;
  rawpy_imread := fun _ =>
    Returned {| raw_pattern :=
                  Some [[0; 2; 1; 2; 0; 1]; [1; 1; 0; 1; 1; 2];
                        [1; 1; 2; 1; 1; 0]; [2; 0; 1; 0; 2; 1];
                        [1; 1; 2; 1; 1; 0]; [1; 1; 0; 1; 1; 2]]%Z;
                color_desc := "RGBG";
                raw_image_visible := {| shape := [6; 6]%Z; buffer := [] |} |};
  file_size := fun _ _ => 36%N
|}.

(** A world in which a file never stops growing. *)
Definition growing_world : World := {|
  get_scan_folder_path := "/scan";
  resolve := fun p =>
    (Path.anchor p ++ String.concat "/" (Path.parts p))%string;
  fits_open := fun _ => Raised FileNotFoundError;
  rawpy_imread := fun _ => Raised LibRawIOError;
  file_size := fun _ n => N.of_nat n
|}.

Definition moved (image_path : string) : Event :=
  {| event_type := "moved"; src_path := ""; dest_path := image_path |}.

Definition created (image_path : string) : Event :=
  {| event_type := "created"; src_path := image_path; dest_path := "" |}.

(** The decoding of [path] fails in one of the ways that the readers
    handle: [fits.open] raises an [OSError] for a FITS file, or
    [rawpy.imread] raises one of the two LibRaw errors for any other
    file. *)
Definition known_decode_failure (w : World) (path : Path.t) : Prop :=
  if str_in (lower (Path.suffix path)) [".fit"; ".fits"]
  then exists e, fits_open w (resolve w path) = Raised e
                 /\ isinstance e OSError = true
  else exists e, rawpy_imread w (resolve w path) = Raised e
                 /\ (isinstance e LibRawNonFatalError = true
                     \/ isinstance e LibRawFatalError = true).

(** The call did not return: it raised or it waits. *)
Definition not_returned (B : Type) (o : Outcome B) : Prop :=
  forall b, o <> Returned b.

Section DueSignals.
Variable A : Type.

(** The signals that one call is due when the queue held [size] items
    before it, and the size after it: the blocking calls signal once, the
    non-blocking ones twice, a call that failed not at all. *)
Definition signals_of_call (op : SignalingQueue.Op A)
    (reply : SignalingQueue.Reply A) (size : Z) : list Signal * Z :=
  match op, reply with
  | SignalingQueue.OpPut _ _ _, SignalingQueue.Enqueued =>
      ([item_pushed_signal (size + 1)], size + 1)%Z
  | SignalingQueue.OpPutNowait _, SignalingQueue.Enqueued =>
      ([item_pushed_signal (size + 1); item_pushed_signal (size + 1)],
       size + 1)%Z
  | SignalingQueue.OpGet _ _, SignalingQueue.Dequeued _ =>
      ([item_popped_signal (size - 1)], size - 1)%Z
  | SignalingQueue.OpGetNowait, SignalingQueue.Dequeued _ =>
      ([item_popped_signal (size - 1); item_popped_signal (size - 1)],
       size - 1)%Z
  | _, _ => ([], size)
  end.

Fixpoint due_signals (ops : list (SignalingQueue.Op A))
    (replies : list (SignalingQueue.Reply A)) (size : Z) : list Signal :=
  match ops, replies with
  | op :: ops', reply :: rs =>
      let (signals, size') := signals_of_call op reply size in
      signals ++ due_signals ops' rs size'
  | _, _ => []
  end.

End DueSignals.

(** The observers that one notification refreshes: all of them in the order
    of the list, up to and with the first whose refresh does not return. *)
Fixpoint notified (observers : list Observer) : list nat :=
  match observers with
  | [] => []
  | observer :: rest =>
      ident observer ::
      match update_according_to_app_state observer with
      | Returned _ => notified rest
      | _ => []
      end
  end.

(** Everything in a store but the session flags and the trace of the
    refreshes. *)
Definition settings (self : DataStore.t) :=
  (DataStore._observers self,
   DataStore._web_server_is_running self,
   DataStore._stacking_mode self,
   DataStore._align_before_stacking self,
   DataStore._process_result self,
   (DataStore._input_queue self, DataStore._stack_queue self,
    DataStore._process_queue self, DataStore._save_queue self)).

Definition returns (observer : Observer) : Prop :=
  update_according_to_app_state observer = Returned tt.

Definition registered (self : DataStore.t) (observer : Observer) : Prop :=
  In (ident observer) (map ident (DataStore._observers self)).

(** Sample observers: one whose refresh returns, one whose refresh raises. *)
Definition main_window : Observer :=
  {| ident := 1; update_according_to_app_state := Returned tt |}.

Definition broken_panel : Observer :=
  {| ident := 2; update_according_to_app_state := Raised TypeError |}.

Definition status_bar : Observer :=
  {| ident := 3; update_according_to_app_state := Returned tt |}.

(** A colour image with its channels last, and the same with its channels
    first. *)
Definition channels_last : Image.t :=
  Image.init {| shape := [480; 640; 3]%Z; buffer := [] |}.

Definition channels_first : Image.t :=
  Image.init {| shape := [3; 480; 640]%Z; buffer := [] |}.

(** An array with one axis. *)
Definition spectrum : Image.t :=
  Image.init {| shape := [2048]%Z; buffer := [] |}.

(** The character [c] occurs in [s]. *)
Fixpoint contains (c : ascii) (s : string) : bool :=
  match s with
  | EmptyString => false
  | String d tl => Ascii.eqb c d || contains c tl
  end.

(** The value of the first card of a header with the keyword [key]. *)
Definition first_card (key : string) (h : list (string * string))
  : option string :=
  match find (fun kv => String.eqb (fst kv) key) h with
  | Some kv => Some (snd kv)
  | None => None
  end.

(** An index that can be looked up in [n] colour labels. *)
Definition in_range (n : Z) (index : Z) : Prop := (0 <= index < n)%Z.

(** The reader that the suffix of a path selects. *)
Definition reader_of (path : Path.t) : Reader :=
  if str_in (lower (Path.suffix path)) [".fit"; ".fits"]
  then FitReader else RawReader.

(** What a module state holds besides its log and its trace of readers. *)
Definition scanner_and_queue (s : State) :=
  (_observer s, scan_in_progress s, _IMAGE_INPUT_QUEUE s).

(** A world in which every FITS file holds one mosaic frame. *)
Definition fits_world : World := {|
  get_scan_folder_path := "/scan";
  resolve := fun p =>
    (Path.anchor p ++ String.concat "/" (Path.parts p))%string;
  fits_open := fun _ =>
    Returned [{| data := {| shape := [4; 6]%Z; buffer := [] |};
                 header := [("SIMPLE", "T"); ("BAYERPAT", "GRBG")] |}];
  rawpy_imread := fun _ => Raised LibRawFileUnsupportedError;
  file_size := fun _ _ => 2880%N
|}.

(** The same world with other readings of the file sizes. *)
Definition with_file_size (w : World) (sizes : string -> nat -> N) : World :=
  {| get_scan_folder_path := get_scan_folder_path w;
     resolve := resolve w;
     fits_open := fits_open w;
     rawpy_imread := rawpy_imread w;
     file_size := sizes |}.

(** A small colour image, channels last, with its sixty samples. *)
Definition rgb_tile : Image.t :=
  Image.set_bayer_pattern
    (Image.init {| shape := [4; 5; 3]%Z;
                   buffer := map Z.of_nat (seq 0 60) |})
    None.

(** * Properties *)

(** ** Strings *)

Lemma append_empty_r (s : string) : (s ++ "")%string = s.
Proof. induction s as [|c s IH]; simpl; [reflexivity | now rewrite IH]. Qed.

Lemma append_assoc (s1 s2 s3 : string) :
  ((s1 ++ s2) ++ s3 = s1 ++ (s2 ++ s3))%string.
Proof. induction s1 as [|c s1 IH]; simpl; [reflexivity | now rewrite IH]. Qed.

Lemma get_in_range (s : string) :
  forall n, n < String.length s -> exists c, String.get n s = Some c.
Proof.
  induction s as [|c s IH]; simpl; intros n Hn; [lia|].
  destruct n as [|n]; [now exists c|].
  apply IH; lia.
Qed.

(** Indexing a [str] inside its bounds returns the character there. *)
Lemma str_getitem_in_range (s : string) (i : Z) :
  (0 <= i < len s)%Z ->
  exists c, String.get (Z.to_nat i) s = Some c /\ str_getitem s i = Returned c.
Proof.
  intros Hi. unfold str_getitem.
  destruct (Z.ltb_spec i 0) as [Hneg|_]; [lia|].
  destruct (Z.leb_spec 0 i) as [_|Hneg]; [|lia].
  destruct (Z.ltb_spec i (len s)) as [_|Hbig]; [|lia].
  simpl.
  destruct (@get_in_range s (Z.to_nat i)) as [c Hc].
  - unfold len in Hi. lia.
  - exists c. now rewrite Hc.
Qed.

(** ** Bayer canonicalization *)

(** The loop appends, for each index in turn, the colour it names. *)
Lemma bayer_loop_returns (colors : string) (n : Z) (todo : list Z) :
  n = len colors ->
  Forall (fun i => 0 <= i < n)%Z todo ->
  forall acc, exists chars,
    bayer_loop n colors todo acc = Returned (acc ++ chars)%string /\
    String.length chars = List.length todo /\
    forall i, i < List.length todo ->
      String.get i chars = String.get (Z.to_nat (nth i todo 0%Z)) colors.
Proof.
  intros Hn Hall. induction Hall as [|index rest Hin _ IH]; intros acc.
  - exists "". simpl. rewrite append_empty_r. repeat split. intros i Hi. lia.
  - simpl. destruct (Z.ltb_spec index n) as [_|Hbig]; [|lia].
    destruct (@str_getitem_in_range colors index) as [c [Hget Hitem]];
      [lia|].
    rewrite Hitem. simpl.
    destruct (IH (acc ++ String c "")%string) as [chars [Hrun [Hlen Hchars]]].
    exists (String c chars). rewrite Hrun, append_assoc. simpl.
    repeat split.
    + now rewrite Hlen.
    + intros [|i] Hi; simpl; [now rewrite Hget|].
      apply Hchars. lia.
Qed.

(** C1.  When rawpy reports an index tile that is a permutation of 0..3 and
    four colour labels, the RAW reader returns an image whose bayer pattern
    has four characters, the i-th being [colors[indices[i]]]; the tile
    [0,1,3,2] with the labels RGBG gives RGGB, and the identity tile gives
    the labels themselves. *)
Theorem raw_bayer_pattern_canonical
    (w : World) (path : Path.t) (s : State) (raw : RawPy)
    (indices : list Z) (colors : string) :
  rawpy_imread w (resolve w path) = Returned raw ->
  flatten (raw_pattern raw) = Returned indices ->
  color_desc raw = colors ->
  Permutation indices [0; 1; 2; 3]%Z ->
  String.length colors = 4 ->
  exists canonical,
    bayer_pattern_of indices colors = Returned canonical /\
    fst (_read_raw_image w path s)
    = Returned (Some (Image.set_bayer_pattern
                        (Image.init (raw_image_visible raw))
                        (Some canonical))) /\
    String.length canonical = 4 /\
    (forall i, i < 4 ->
       String.get i canonical
       = String.get (Z.to_nat (nth i indices 0%Z)) colors) /\
    (indices = [0; 1; 3; 2]%Z -> colors = "RGBG" -> canonical = "RGGB") /\
    (indices = [0; 1; 2; 3]%Z -> canonical = colors).
Proof.
  intros Hopen Hflat Hdesc Hperm Hlen.
  assert (Hsize : List.length indices = 4)
    by (now rewrite (Permutation_length Hperm)).
  assert (Hrange : Forall (fun i => 0 <= i < Z.of_nat (List.length indices))%Z
                          indices).
  { apply Forall_forall. intros i Hi. rewrite Hsize.
    apply (Permutation_in _ Hperm) in Hi. simpl in Hi.
    destruct Hi as [<-|[<-|[<-|[<-|[]]]]]; lia. }
  assert (Hn : Z.of_nat (List.length indices) = len colors)
    by (unfold len; now rewrite Hsize, Hlen).
  destruct (@bayer_loop_returns colors _ indices Hn Hrange "")
    as [canonical [Hrun [Hclen Hchars]]].
  simpl in Hrun.
  assert (Hpat : bayer_pattern_of indices colors = Returned canonical).
  { unfold bayer_pattern_of. rewrite Hn, Z.eqb_refl, <- Hn. exact Hrun. }
  exists canonical. split; [exact Hpat|]. split.
  { unfold _read_raw_image, bind, try_except, lift, enter, ret. simpl.
    rewrite Hopen, Hflat, Hdesc, Hpat. reflexivity. }
  split; [now rewrite Hclen|]. split.
  { intros i Hi. apply Hchars. lia. }
  split.
  - intros -> ->. vm_compute in Hpat. now inversion Hpat.
  - intros ->.
    destruct colors as [|c0 [|c1 [|c2 [|c3 [|c4 tl]]]]]; try discriminate.
    vm_compute in Hpat. now inversion Hpat.
Qed.

Lemma raw_bayer_pattern_canonical_witness :
  exists canonical,
    bayer_pattern_of [0; 1; 3; 2]%Z "RGBG" = Returned canonical /\
    fst (_read_raw_image dslr_world (Path.of_string "/scan/m42.cr2") initial)
    = Returned (Some (Image.set_bayer_pattern
                        (Image.init {| shape := [4; 6]%Z; buffer := [] |})
                        (Some canonical))) /\
    String.length canonical = 4 /\
    (forall i, i < 4 ->
       String.get i canonical
       = String.get (Z.to_nat (nth i [0; 1; 3; 2]%Z 0%Z)) "RGBG") /\
    ([0; 1; 3; 2]%Z = [0; 1; 3; 2]%Z -> "RGBG" = "RGBG" ->
     canonical = "RGGB") /\
    ([0; 1; 3; 2]%Z = [0; 1; 2; 3]%Z -> canonical = "RGBG").
Proof.
  apply (@raw_bayer_pattern_canonical dslr_world
           (Path.of_string "/scan/m42.cr2") initial
           {| raw_pattern := Some [[0; 1]; [3; 2]]%Z;
              color_desc := "RGBG";
              raw_image_visible := {| shape := [4; 6]%Z; buffer := [] |} |}
           [0; 1; 3; 2]%Z "RGBG").
  - reflexivity.
  - reflexivity.
  - reflexivity.
  - apply perm_skip, perm_skip, perm_swap.
  - reflexivity.
Defined.

(** ** The signaling queue *)

Section SignalingQueueFacts.
Variable A : Type.

(** A [Queue.put] either appends the item or leaves the queue as it was. *)
Lemma queue_put_cases (q : Queue.t A) (item : A) block timeout :
  Queue.put q item block timeout
  = (Returned tt, Queue.mk (Queue.maxsize q) (Queue.items q ++ [item]))
  \/ exists o, Queue.put q item block timeout = (o, q) /\ not_returned o.
Proof.
  unfold Queue.put.
  destruct (0 <? Queue.maxsize q)%Z; [|now left].
  destruct block; simpl.
  - destruct timeout as [tm|].
    + destruct (tm <? 0)%Z;
        [right; eexists; split; [reflexivity | intros b; discriminate]|].
      destruct (Queue.maxsize q <=? Queue.qsize q)%Z; [|now left].
      right; eexists; split; [reflexivity | intros b; discriminate].
    + destruct (Queue.maxsize q <=? Queue.qsize q)%Z; [|now left].
      right; eexists; split; [reflexivity | intros b; discriminate].
  - destruct (Queue.maxsize q <=? Queue.qsize q)%Z; [|now left].
    right; eexists; split; [reflexivity | intros b; discriminate].
Qed.

(** A [Queue.get] either takes the oldest item or leaves the queue as it
    was. *)
Lemma queue_get_cases (q : Queue.t A) block timeout :
  (exists item rest,
      Queue.items q = item :: rest /\
      Queue.get q block timeout
      = (Returned item, Queue.mk (Queue.maxsize q) rest))
  \/ exists o, Queue.get q block timeout = (o, q) /\ not_returned o.
Proof.
  unfold Queue.get, Queue.empty, Queue.qsize.
  destruct (Queue.items q) as [|item rest] eqn:Hitems; simpl.
  - right. destruct block; simpl.
    + destruct timeout as [tm|]; [destruct (tm <? 0)%Z|];
        eexists; (split; [reflexivity | intros b; discriminate]).
    + eexists; split; [reflexivity | intros b; discriminate].
  - destruct block; simpl.
    + destruct timeout as [tm|].
      * destruct (tm <? 0)%Z.
        -- right. eexists; split; [reflexivity | intros b; discriminate].
        -- left. now exists item, rest.
      * left. now exists item, rest.
    + left. now exists item, rest.
Qed.

(** The blocking [put] and [get] of the signaling queue emit one signal
    per call that returns, with the size after the call, and none
    otherwise. *)
Lemma put_emits_once (q : SignalingQueue.t A) (item : A) block timeout :
  SignalingQueue.put q item block timeout
  = (Returned tt,
     SignalingQueue.mk
       (Queue.mk (Queue.maxsize (SignalingQueue.base q))
                 (Queue.items (SignalingQueue.base q) ++ [item]))
       (SignalingQueue.emitted q
        ++ [item_pushed_signal (SignalingQueue.qsize q + 1)]))
  \/ exists o, SignalingQueue.put q item block timeout = (o, q)
               /\ not_returned o.
Proof.
  unfold SignalingQueue.put.
  destruct (queue_put_cases (SignalingQueue.base q) item block timeout)
    as [Hput | [o [Hput Ho]]]; rewrite Hput.
  - left. unfold SignalingQueue.emit, SignalingQueue.qsize, Queue.qsize.
    simpl. rewrite length_app. simpl.
    now rewrite Nat2Z.inj_add.
  - right. exists o. destruct q as [b e]. simpl.
    destruct o as [u| |]; [now destruct (Ho u) | now split ..].
Qed.

Lemma get_emits_once (q : SignalingQueue.t A) block timeout :
  (exists item rest,
      Queue.items (SignalingQueue.base q) = item :: rest /\
      SignalingQueue.get q block timeout
      = (Returned item,
         SignalingQueue.mk
           (Queue.mk (Queue.maxsize (SignalingQueue.base q)) rest)
           (SignalingQueue.emitted q
            ++ [item_popped_signal (Z.of_nat (List.length rest))])))
  \/ exists o, SignalingQueue.get q block timeout = (o, q)
               /\ not_returned o.
Proof.
  unfold SignalingQueue.get.
  destruct (queue_get_cases (SignalingQueue.base q) block timeout)
    as [[item [rest [Hitems Hget]]] | [o [Hget Ho]]]; rewrite Hget.
  - left. now exists item, rest.
  - right. exists o. destruct q as [b e]. simpl.
    destruct o as [u| |]; [now destruct (Ho u) | now split ..].
Qed.

(** Whatever the call, a step appends the item it enqueued, removes the
    oldest item when it dequeued, and otherwise keeps the items. *)
Lemma step_items (q : SignalingQueue.t A) (op : SignalingQueue.Op A) :
  let items q := Queue.items (SignalingQueue.base q) in
  match SignalingQueue.step q op with
  | (SignalingQueue.Enqueued, q1) =>
      exists item, enqueued [op] [SignalingQueue.Enqueued] = [item]
                   /\ items q1 = items q ++ [item]
  | (SignalingQueue.Dequeued item, q1) => items q = item :: items q1
  | (SignalingQueue.Failed, q1) => items q1 = items q
  end.
Proof.
  destruct op as [item block timeout | item | block timeout | ]; simpl.
  - destruct (put_emits_once q item block timeout)
      as [H | [o [H Ho]]]; rewrite H; simpl.
    + now exists item.
    + destruct o as [u| |]; [now destruct (Ho u) | reflexivity ..].
  - unfold SignalingQueue.put_nowait, Queue.put_nowait.
    destruct (put_emits_once q item false None)
      as [H | [o [H Ho]]]; rewrite H; simpl.
    + now exists item.
    + destruct o as [u| |]; [now destruct (Ho u) | reflexivity ..].
  - destruct (get_emits_once q block timeout)
      as [[item [rest [Hitems H]]] | [o [H Ho]]]; rewrite H; simpl.
    + exact Hitems.
    + destruct o as [u| |]; [now destruct (Ho u) | reflexivity ..].
  - unfold SignalingQueue.get_nowait, Queue.get_nowait.
    destruct (get_emits_once q false None)
      as [[item [rest [Hitems H]]] | [o [H Ho]]]; rewrite H; simpl.
    + exact Hitems.
    + destruct o as [u| |]; [now destruct (Ho u) | reflexivity ..].
Qed.

(** X1.  First in, first out: what was in the queue followed by what the calls
    enqueued is what the calls dequeued followed by what is left. *)
Lemma run_fifo (ops : list (SignalingQueue.Op A)) :
  forall q : SignalingQueue.t A,
    let (replies, q') := SignalingQueue.run q ops in
    Queue.items (SignalingQueue.base q) ++ enqueued ops replies
    = dequeued replies ++ Queue.items (SignalingQueue.base q').
Proof.
  induction ops as [|op ops IH]; intros q; simpl.
  - now rewrite app_nil_r.
  - pose proof (step_items q op) as Hstep. simpl in Hstep.
    destruct (SignalingQueue.step q op) as [r q1].
    specialize (IH q1).
    destruct (SignalingQueue.run q1 ops) as [rs q2].
    destruct r as [|item|].
    + destruct Hstep as [item [Hitem Hq1]].
      rewrite Hq1, <- app_assoc in IH. simpl in IH.
      destruct op; simpl in *; inversion Hitem; subst; exact IH.
    + rewrite Hstep. destruct op; simpl; now rewrite <- IH.
    + rewrite Hstep in IH.
      destruct op; simpl; exact IH.
Qed.

(** C2.  The non-blocking calls notify twice: a [put_nowait] that
    enqueues the N-th item emits two "pushed" signals with N, and a
    [get_nowait] that leaves M items emits two "popped" signals with M. *)
Theorem nowait_calls_notify_twice :
  (forall (items : list A) (emitted : list Signal) (item : A),
      SignalingQueue.put_nowait
        (SignalingQueue.mk (Queue.mk 0 items) emitted) item
      = (Returned tt,
         SignalingQueue.mk
           (Queue.mk 0 (items ++ [item]))
           (emitted
            ++ [item_pushed_signal (Z.of_nat (List.length items) + 1);
                item_pushed_signal (Z.of_nat (List.length items) + 1)])))
  /\
  (forall (item : A) (rest : list A) (emitted : list Signal),
      SignalingQueue.get_nowait
        (SignalingQueue.mk (Queue.mk 0 (item :: rest)) emitted)
      = (Returned item,
         SignalingQueue.mk
           (Queue.mk 0 rest)
           (emitted
            ++ [item_popped_signal (Z.of_nat (List.length rest));
                item_popped_signal (Z.of_nat (List.length rest))]))).
Proof.
  split.
  - intros items emitted item.
    unfold SignalingQueue.put_nowait, Queue.put_nowait.
    destruct (put_emits_once
                (SignalingQueue.mk (Queue.mk 0 items) emitted)
                item false None) as [H | [o [H Ho]]].
    + rewrite H. unfold SignalingQueue.emit, SignalingQueue.qsize,
        Queue.qsize. simpl. rewrite length_app, <- app_assoc. simpl.
      now rewrite Nat2Z.inj_add.
    + exfalso. unfold SignalingQueue.put, Queue.put in H. simpl in H.
      inversion H; subst. now destruct (Ho tt).
  - intros item rest emitted.
    unfold SignalingQueue.get_nowait, Queue.get_nowait,
      SignalingQueue.get, Queue.get, Queue.empty, Queue.qsize,
      SignalingQueue.emit, SignalingQueue.qsize, Queue.qsize.
    simpl. now rewrite <- app_assoc.
Qed.

End SignalingQueueFacts.

(** The smallest run: one [put_nowait] on a fresh queue, then one
    [get_nowait]. *)
Example fresh_queue_nowait_run :
  SignalingQueue.run (SignalingQueue.init 0)
    [SignalingQueue.OpPutNowait "m42"; SignalingQueue.OpGetNowait]
  = ([SignalingQueue.Enqueued; SignalingQueue.Dequeued "m42"],
     SignalingQueue.mk (Queue.mk 0 [])
       [item_pushed_signal 1; item_pushed_signal 1;
        item_popped_signal 0; item_popped_signal 0]).
Proof. reflexivity. Qed.

(** ** The session flags of the data store *)

Lemma notify_loop_keeps_flags (observers : list Observer) :
  forall self : DataStore.t,
    session_flags (snd (DataStore.notify_loop observers self))
    = session_flags self.
Proof.
  induction observers as [|observer rest IH]; intros self; simpl.
  - reflexivity.
  - destruct (update_according_to_app_state observer); simpl;
      [now rewrite IH | reflexivity ..].
Qed.

Lemma call_sets_flags (self : DataStore.t) (c : DataStore.Transition) :
  session_flags (snd (DataStore.call self c)) = flags_of c.
Proof.
  destruct c; simpl;
    unfold DataStore.record_session_start, DataStore.record_session_stop,
      DataStore.record_session_pause, DataStore._notify_observers;
    simpl; now rewrite notify_loop_keeps_flags.
Qed.

Lemma calls_snoc (cs : list DataStore.Transition) (c : DataStore.Transition) :
  forall self : DataStore.t,
    DataStore.calls self (cs ++ [c])
    = snd (DataStore.call (DataStore.calls self cs) c).
Proof.
  induction cs as [|c' cs IH]; intros self; simpl;
    [reflexivity | apply IH].
Qed.

(** C3.  A fresh store is stopped and not started and not paused; after any
    sequence of transition calls from any store, the one flag that is set is
    the flag of the last call, whatever the store was before and whatever
    the observers did. *)
Theorem session_flags_follow_last_call :
  session_flags DataStore.init = (false, true, false) /\
  forall (self : DataStore.t) (cs : list DataStore.Transition)
         (c : DataStore.Transition),
    session_flags (DataStore.calls self (cs ++ [c]))
    = match c with
      | DataStore.Start => (true, false, false)
      | DataStore.Stop => (false, true, false)
      | DataStore.Pause => (false, false, true)
      end.
Proof.
  split; [reflexivity|].
  intros self cs c. rewrite calls_snoc. apply call_sets_flags.
Qed.

(** ** The stacking mode *)

(** What the setter stores: the text itself when its stripped form is one of
    the two modes, "Mean" otherwise. *)
Lemma stacking_mode_after_set (self : DataStore.t) (text : string) :
  DataStore.stacking_mode (DataStore.set_stacking_mode self text)
  = if str_in (strip text) [STACKING_MODE_MEAN; STACKING_MODE_SUM]
    then text else STACKING_MODE_MEAN.
Proof.
  unfold DataStore.set_stacking_mode.
  destruct (str_in (strip text) [STACKING_MODE_MEAN; STACKING_MODE_SUM]);
    reflexivity.
Qed.

(** C4.  Setting " Sum ", which is "Sum" once stripped, stores " Sum " with
    its spaces, and that is not "Sum"; "Sum" and "bogus" read back as "Sum"
    and "Mean". *)
Theorem stacking_mode_keeps_padding (self : DataStore.t) :
  strip " Sum " = "Sum" /\
  DataStore.stacking_mode (DataStore.set_stacking_mode self " Sum ")
  = " Sum " /\
  " Sum " <> "Sum" /\
  DataStore.stacking_mode (DataStore.set_stacking_mode self "Sum") = "Sum" /\
  DataStore.stacking_mode (DataStore.set_stacking_mode self "bogus")
  = "Mean".
Proof.
  repeat split; try reflexivity. discriminate.
Qed.

(** ** Images *)

(** C9, as the specification states it, fails on a one-dimensional array
    that carries a bayer pattern. *)
Lemma needs_debayering_below_rank_2 :
  ~ (forall img : Image.t,
        Image.needs_debayering img = true <->
        (Image._bayer_pattern img <> None /\
         ndim (Image._data img) = 2%Z)).
Proof.
  intros H. destruct (proj1 (H rank_1_mosaic)) as [_ Hrank].
  - reflexivity.
  - discriminate Hrank.
Qed.

(** C9, amended.  An image needs debayering exactly when a bayer pattern is
    set and its array has fewer than three dimensions; it is a colour image
    exactly when the array has more than two. *)
Theorem needs_debayering_is_color_spec (img : Image.t) :
  (Image.needs_debayering img = true <->
   (Image._bayer_pattern img <> None /\ (ndim (Image._data img) < 3)%Z))
  /\
  (Image.is_color img = true <-> (ndim (Image._data img) > 2)%Z).
Proof.
  unfold Image.needs_debayering, Image.is_color. split.
  - destruct (Image._bayer_pattern img) as [pattern|].
    + rewrite Z.ltb_lt. split; [intros H; split; [discriminate | exact H]|].
      now intros [_ H].
    + split; [discriminate | now intros [H _]].
  - rewrite Z.ltb_lt. lia.
Qed.

(** [max] and [min] of a non-empty sequence are members of it and bound
    it. *)
Lemma fold_max_spec (l : list Z) :
  forall x, In (fold_left Z.max l x) (x :: l) /\
            forall d, In d (x :: l) -> (d <= fold_left Z.max l x)%Z.
Proof.
  induction l as [|y l IH]; intros x; simpl.
  - split; [now left | intros d [<-|[]]; lia].
  - destruct (IH (Z.max x y)) as [Hin Hle]. split.
    + destruct Hin as [Hin|Hin]; [|now right; right].
      rewrite <- Hin. destruct (Z.max_spec x y) as [[_ ->]|[_ ->]];
        [right; now left | now left].
    + intros d [<-|[<-|Hd]].
      * specialize (Hle (Z.max x y) (or_introl eq_refl)). lia.
      * specialize (Hle (Z.max x y) (or_introl eq_refl)). lia.
      * apply Hle. now right.
Qed.

Lemma fold_min_spec (l : list Z) :
  forall x, In (fold_left Z.min l x) (x :: l) /\
            forall d, In d (x :: l) -> (fold_left Z.min l x <= d)%Z.
Proof.
  induction l as [|y l IH]; intros x; simpl.
  - split; [now left | intros d [<-|[]]; lia].
  - destruct (IH (Z.min x y)) as [Hin Hle]. split.
    + destruct Hin as [Hin|Hin]; [|now right; right].
      rewrite <- Hin. destruct (Z.min_spec x y) as [[_ ->]|[_ ->]];
        [now left | right; now left].
    + intros d [<-|[<-|Hd]].
      * specialize (Hle (Z.min x y) (or_introl eq_refl)). lia.
      * specialize (Hle (Z.min x y) (or_introl eq_refl)). lia.
      * apply Hle. now right.
Qed.

Lemma py_max_spec (l : list Z) (m : Z) :
  py_max l = Returned m -> In m l /\ forall d, In d l -> (d <= m)%Z.
Proof.
  destruct l as [|x l]; simpl; [discriminate|].
  intros H. inversion H. apply fold_max_spec.
Qed.

Lemma py_min_spec (l : list Z) (m : Z) :
  py_min l = Returned m -> In m l /\ forall d, In d l -> (m <= d)%Z.
Proof.
  destruct l as [|x l]; simpl; [discriminate|].
  intros H. inversion H. apply fold_min_spec.
Qed.

(** Removing a member returns a list that is one shorter. *)
Lemma list_remove_member (x : Z) (l : list Z) :
  In x l ->
  exists l', list_remove x l = Returned l'
             /\ List.length l = S (List.length l').
Proof.
  induction l as [|y l IH]; simpl; [intros []|].
  intros Hin. destruct (Z.eqb_spec x y) as [->|Hne].
  - now exists l.
  - destruct IH as [l' [Hrm Hlen]]; [destruct Hin; congruence|].
    rewrite Hrm. exists (y :: l'). simpl. now rewrite Hlen.
Qed.

(** An array of rank two or more has at least two dimensions left. *)
Lemma dimensions_returns (img : Image.t) :
  (2 <= ndim (Image._data img))%Z ->
  exists d1 d2 rest, Image.dimensions img = Returned (d1 :: d2 :: rest).
Proof.
  unfold Image.dimensions, ndim. intros Hrank.
  destruct (shape (Image._data img)) as [|a [|b [|c tl]]] eqn:Hshape;
    simpl in Hrank; try lia.
  - now exists a, b, [].
  - replace (Z.of_nat (List.length (a :: b :: c :: tl)) =? 2)%Z with false
      by (symmetry; apply Z.eqb_neq; simpl List.length; lia).
    destruct (py_min (a :: b :: c :: tl)) as [m| |] eqn:Hmin;
      try discriminate.
    destruct (py_min_spec _ Hmin) as [Hin _].
    cbv beta iota delta [bindO].
    destruct (list_remove_member _ _ Hin) as [l' [Hrm Hlen]].
    rewrite Hrm. destruct l' as [|d1 [|d2 rest]]; simpl in Hlen; try lia.
    now exists d1, d2, rest.
Qed.

(** C10.  For an array of rank two or more, [width] and [height] return; and
    whenever they return, [width] is the largest and [height] the smallest
    of the derived dimensions, so [height <= width]; the rank-2 image of
    shape (1000, 500) has width 1000 and height 500. *)
Theorem width_is_max_height_is_min (img : Image.t) :
  ((2 <= ndim (Image._data img))%Z ->
   exists w h, Image.width img = Returned w /\ Image.height img = Returned h)
  /\
  (forall w h,
      Image.width img = Returned w -> Image.height img = Returned h ->
      (h <= w)%Z /\
      exists dims, Image.dimensions img = Returned dims /\
                   In w dims /\ In h dims /\
                   forall d, In d dims -> (h <= d <= w)%Z)
  /\
  (shape (Image._data img) = [1000; 500]%Z ->
   Image.width img = Returned 1000%Z /\ Image.height img = Returned 500%Z).
Proof.
  split; [|split].
  - intros Hrank. destruct (dimensions_returns img Hrank)
      as [d1 [d2 [rest Hdims]]].
    unfold Image.width, Image.height. rewrite Hdims. simpl.
    eexists. eexists. split; reflexivity.
  - unfold Image.width, Image.height. intros w h Hw Hh.
    destruct (Image.dimensions img) as [dims| |]; try discriminate.
    simpl in Hw, Hh.
    destruct (py_max_spec _ Hw) as [Hwin Hwle].
    destruct (py_min_spec _ Hh) as [Hhin Hhle].
    split; [now apply Hwle|].
    exists dims. repeat split; auto.
  - intros Hshape. unfold Image.width, Image.height, Image.dimensions, ndim.
    rewrite Hshape. split; reflexivity.
Qed.

Lemma width_is_max_height_is_min_witness :
  Image.width portrait = Returned 1000%Z /\
  Image.height portrait = Returned 500%Z /\
  (500 <= 1000)%Z.
Proof.
  destruct (width_is_max_height_is_min portrait) as [_ [Hrel Hex]].
  destruct (Hex eq_refl) as [Hw Hh].
  split; [exact Hw|]. split; [exact Hh|].
  exact (proj1 (Hrel 1000%Z 500%Z Hw Hh)).
Defined.

(** ** Ignored file names *)

(** C8.  When the final component of the path begins with ".", "~" or
    "tmp", [read_image] returns no image and changes nothing: no reader is
    entered and nothing is logged. *)
Theorem read_image_ignores_prefixed
    (w : World) (path : Path.t) (s : State) :
  String.prefix "." (Path.name path) = true \/
  String.prefix "~" (Path.name path) = true \/
  String.prefix "tmp" (Path.name path) = true ->
  read_image w path s = (Returned None, s) /\
  reader_calls (snd (read_image w path s)) = reader_calls s.
Proof.
  intros Hname.
  assert (Hignore : ignore_loop _IGNORED_FILENAME_START_PATTERNS
                                (Path.name path) = true).
  { unfold _IGNORED_FILENAME_START_PATTERNS. simpl ignore_loop.
    destruct Hname as [H|[H|H]]; rewrite H;
      destruct (String.prefix "." (Path.name path)); try reflexivity;
      destruct (String.prefix "~" (Path.name path)); reflexivity. }
  unfold read_image. rewrite Hignore. simpl. now split.
Qed.

Lemma read_image_ignores_prefixed_witness :
  read_image dslr_world (Path.of_string "/scan/.m42.cr2") initial
  = (Returned None, initial) /\
  reader_calls
    (snd (read_image dslr_world (Path.of_string "/scan/.m42.cr2") initial))
  = reader_calls initial.
Proof.
  apply (@read_image_ignores_prefixed dslr_world
           (Path.of_string "/scan/.m42.cr2") initial).
  left. reflexivity.
Defined.

(** ** Pause and stop *)

Lemma stop_observer_returns (s : State) :
  fst (_stop_observer s) = Returned tt /\
  _IMAGE_INPUT_QUEUE (snd (_stop_observer s)) = _IMAGE_INPUT_QUEUE s.
Proof.
  unfold _stop_observer. destruct (_observer s); now split.
Qed.

(** Enough turns of the purge loop empty the queue and change nothing
    else. *)
Lemma purge_loop_empties (items : list Image.t) :
  forall (fuel : nat) (s : State),
    Queue.items (_IMAGE_INPUT_QUEUE s) = items ->
    List.length items < fuel ->
    purge_loop fuel s
    = Some (Returned tt,
            with_queue s (Queue.mk (Queue.maxsize (_IMAGE_INPUT_QUEUE s)) [])).
Proof.
  induction items as [|item rest IH]; intros fuel s Hitems Hfuel;
    (destruct fuel as [|fuel]; [simpl in Hfuel; lia|]);
    simpl; unfold Queue.empty, Queue.qsize; rewrite Hitems; simpl.
  - destruct s as [o p [m q] l r]. simpl in *. now subst.
  - unfold queue_get, Queue.get, Queue.empty, Queue.qsize.
    rewrite Hitems. simpl.
    rewrite (IH fuel); [reflexivity | reflexivity | simpl in Hfuel; lia].
Qed.

(** As many [get()] as there are items return them oldest first. *)
Lemma dequeue_all (items : list Image.t) :
  forall s : State,
    Queue.items (_IMAGE_INPUT_QUEUE s) = items ->
    fst (dequeue (List.length items) s) = map Returned items.
Proof.
  induction items as [|item rest IH]; intros s Hitems; simpl;
    [reflexivity|].
  unfold queue_get, Queue.get, Queue.empty, Queue.qsize.
  rewrite Hitems. simpl.
  specialize (IH (with_queue s (Queue.mk (Queue.maxsize
                                            (_IMAGE_INPUT_QUEUE s)) rest))
                 eq_refl).
  destruct (dequeue (List.length rest)
              (with_queue s (Queue.mk (Queue.maxsize (_IMAGE_INPUT_QUEUE s))
                                      rest))) as [os s2].
  simpl in *. now rewrite IH.
Qed.

(** C5.  [pause] returns and leaves the input queue as it was, so that as
    many [get()] as it had items return them in their order; [stop], given
    at least one turn of its loop more than there are items, returns in the
    state that [pause] gives but for the queue, which is empty, and the
    line that reports the purge. *)
Theorem pause_keeps_queue_stop_purges (s : State) (extra : nat) :
  let items := Queue.items (_IMAGE_INPUT_QUEUE s) in
  let paused := snd (pause s) in
  fst (pause s) = Returned tt /\
  _IMAGE_INPUT_QUEUE paused = _IMAGE_INPUT_QUEUE s /\
  fst (dequeue (List.length items) paused) = map Returned items /\
  stop (S (List.length items) + extra) s
  = Some (log_ INFO InputQueuePurged
            (with_queue paused
               (Queue.mk (Queue.maxsize (_IMAGE_INPUT_QUEUE s)) []))) /\
  option_map fst (stop (S (List.length items) + extra) s)
  = Some (Returned tt) /\
  option_map (fun r => Queue.items (_IMAGE_INPUT_QUEUE (snd r)))
             (stop (S (List.length items) + extra) s)
  = Some [].
Proof.
  intros items paused.
  destruct (stop_observer_returns s) as [Hret Hqueue].
  assert (Hstop : stop (S (List.length items) + extra) s
                  = Some (log_ INFO InputQueuePurged
                            (with_queue paused
                               (Queue.mk (Queue.maxsize (_IMAGE_INPUT_QUEUE s))
                                         [])))).
  { unfold stop, _purge_queue. subst paused. unfold pause.
    destruct (_stop_observer s) as [o s1] eqn:Hso. simpl in Hret, Hqueue.
    subst o. simpl snd.
    rewrite (@purge_loop_empties items);
      [now rewrite Hqueue | now rewrite Hqueue | lia]. }
  split; [exact Hret|]. split; [exact Hqueue|]. split.
  { apply dequeue_all. subst paused items. unfold pause.
    now rewrite Hqueue. }
  split; [exact Hstop|].
  rewrite Hstop. now split.
Qed.

(** ** Waiting for a created file to be written *)

Section Waiting.
Variable w : World.
Variable image_path : string.

Let sizes : nat -> N := file_size w image_path.

(** The loop, entered for its reading [p+1] with the reading [p] as the
    last size: it ends exactly when, within its fuel, some reading repeats
    the one before, and it ends at the first such reading. *)
Lemma wait_loop_from (fuel : nat) :
  forall (p : nat) (s r : State),
    wait_loop w fuel image_path (S p) (Z.of_N (sizes p)) s = Some r <->
    exists d,
      d < fuel /\
      sizes (S (p + d)) = sizes (p + d) /\
      (forall j, j < d -> sizes (S (p + j)) <> sizes (p + j)) /\
      r = snd (log_ DEBUG (FileFullyWritten image_path)
                 (polled w image_path (S p) (S d) s)).
Proof.
  induction fuel as [|fuel IH]; intros p s r.
  - simpl. split; [discriminate | intros [d [Hd _]]; lia].
  - simpl wait_loop. fold sizes.
    destruct (Z.eqb_spec (Z.of_N (sizes (S p))) (Z.of_N (sizes p)))
      as [Heq|Hne].
    + apply N2Z.inj in Heq. split.
      * intros Hr. inversion Hr. exists 0. rewrite Nat.add_0_r.
        repeat split; [lia | exact Heq | intros j Hj; lia].
      * intros [d [_ [_ [Hfirst ->]]]].
        destruct d as [|d]; [reflexivity|].
        exfalso. apply (Hfirst 0); [lia|]. now rewrite Nat.add_0_r.
    + assert (Hne' : sizes (S p) <> sizes p) by congruence.
      rewrite IH. split.
      * intros [d [Hd [Heq [Hfirst ->]]]]. exists (S d).
        rewrite Nat.add_succ_r. repeat split; [lia | exact Heq | ].
        intros [|j] Hj; [now rewrite Nat.add_0_r|].
        rewrite Nat.add_succ_r. apply Hfirst. lia.
      * intros [[|d] [Hd [Heq [Hfirst ->]]]].
        -- rewrite Nat.add_0_r in Heq. contradiction.
        -- exists d. rewrite Nat.add_succ_r in Heq.
           repeat split; [lia | exact Heq | ].
           intros j Hj. specialize (Hfirst (S j)).
           rewrite Nat.add_succ_r in Hfirst. apply Hfirst. lia.
Qed.

(** There is a first equal pair as soon as there is an equal pair. *)
Lemma first_equal_pair_below (n : nat) :
  (exists k, k <= n /\ first_equal_pair sizes k) \/
  (forall j, j <= n -> sizes (S j) <> sizes j).
Proof.
  induction n as [|n [[k [Hk Hfirst]] | Hnone]].
  - destruct (N.eq_dec (sizes 1) (sizes 0)) as [Heq|Hne].
    + left. exists 0. repeat split; [lia | exact Heq | intros j Hj; lia].
    + right. intros j Hj. now replace j with 0 by lia.
  - left. exists k. split; [lia | exact Hfirst].
  - destruct (N.eq_dec (sizes (S (S n))) (sizes (S n))) as [Heq|Hne].
    + left. exists (S n). repeat split; [lia | exact Heq | ].
      intros j Hj. apply Hnone. lia.
    + right. intros j Hj.
      destruct (Nat.eq_dec j (S n)) as [->|Hj']; [exact Hne|].
      apply Hnone. lia.
Qed.

(** C7.  On a creation event the handler goes on to read the file exactly
    when, within the readings it is given, two consecutive readings of
    the size were equal, and it does so from the state reached at the
    first such pair; and the sizes never repeat from one reading to the
    next exactly when no number of readings ends the wait. *)
Theorem on_created_waits_for_equal_sizes (dest : string) (s : State) :
  let event := {| event_type := "created";
                  src_path := image_path;
                  dest_path := dest |} in
  (forall (fuel : nat) (r : Outcome unit * State),
      on_created w fuel event s = Some r <->
      exists k, first_equal_pair sizes k /\ k + 2 <= fuel /\
                r = ingest w image_path (written_after w image_path k s))
  /\
  ((forall n, sizes (S n) <> sizes n) <->
   (forall fuel, on_created w fuel event s = None)).
Proof.
  intros event.
  assert (Hrun : forall fuel r,
    on_created w fuel event s = Some r <->
    exists k, first_equal_pair sizes k /\ k + 2 <= fuel /\
              r = ingest w image_path (written_after w image_path k s)).
  { intros fuel r. unfold on_created, written_after. subst event.
    cbn [event_type src_path]. rewrite String.eqb_refl.
    set (s1 := snd (log_ DEBUG (FileCreationDetected image_path) s)).
    destruct fuel as [|fuel].
    { cbn [wait_loop]. split; [discriminate | intros [k [_ [Hk _]]]; lia]. }
    cbn [wait_loop]. fold sizes.
    destruct (Z.eqb_spec (Z.of_N (sizes 0)) (-1)) as [Hneg|_]; [lia|].
    set (s2 := snd (log_ DEBUG (FileSize image_path (sizes 0)) s1)).
    split.
    - destruct (wait_loop w fuel image_path 1 (Z.of_N (sizes 0)) s2)
        as [s3|] eqn:Hwait; [|discriminate].
      intros Hr. inversion Hr.
      apply wait_loop_from in Hwait.
      destruct Hwait as [d [Hd [Heq [Hfirst ->]]]].
      exists d. split; [split; [exact Heq | exact Hfirst]|].
      split; [lia|].
      replace (d + 2) with (S (S d)) by lia. reflexivity.
    - intros [k [[Heq Hfirst] [Hk ->]]].
      assert (Hwait : wait_loop w fuel image_path 1 (Z.of_N (sizes 0)) s2
                      = Some (snd (log_ DEBUG (FileFullyWritten image_path)
                                     (polled w image_path 1 (S k) s2)))).
      { apply wait_loop_from. exists k.
        repeat split; [lia | exact Heq | exact Hfirst]. }
      rewrite Hwait. replace (k + 2) with (S (S k)) by lia. reflexivity. }
  split; [exact Hrun|]. split.
  - intros Hnever fuel.
    destruct (on_created w fuel event s) as [r|] eqn:Hr; [|reflexivity].
    apply Hrun in Hr. destruct Hr as [k [[Heq _] _]].
    now destruct (Hnever k).
  - intros Hnone n Heq.
    destruct (first_equal_pair_below n) as [[k [_ Hfirst]] | Hnever].
    + specialize (Hnone (k + 2)).
      assert (Hsome : on_created w (k + 2) event s
                      = Some (ingest w image_path
                                (written_after w image_path k s))).
      { apply Hrun. exists k. repeat split; try apply Hfirst. lia. }
      congruence.
    + now apply (Hnever n).
Qed.

End Waiting.

(** ** Failed decodes *)

Lemma wait_loop_keeps_queue (w : World) (image_path : string) (fuel : nat) :
  forall (poll : nat) (last : Z) (s s' : State),
    wait_loop w fuel image_path poll last s = Some s' ->
    _IMAGE_INPUT_QUEUE s' = _IMAGE_INPUT_QUEUE s.
Proof.
  induction fuel as [|fuel IH]; intros poll last s s'; cbn [wait_loop];
    [discriminate|].
  destruct (Z.of_N (file_size w image_path poll) =? last)%Z.
  - intros H. inversion H. reflexivity.
  - intros H. apply IH in H. exact H.
Qed.

(** A failure that the readers handle is reported and gives no image. *)
Lemma read_image_known_failure (w : World) (path : Path.t) (s : State) :
  known_decode_failure w path ->
  fst (read_image w path s) = Returned None /\
  _IMAGE_INPUT_QUEUE (snd (read_image w path s)) = _IMAGE_INPUT_QUEUE s.
Proof.
  unfold known_decode_failure, read_image. intros Hfail.
  destruct (ignore_loop _IGNORED_FILENAME_START_PATTERNS (Path.name path));
    [now split|].
  cbn [negb].
  destruct (str_in (lower (Path.suffix path)) [".fit"; ".fits"]).
  - destruct Hfail as [e [Hopen Hinst]].
    unfold _read_fit_image, bind, try_except, lift, enter, _report_error,
      log_, ret.
    rewrite Hopen, Hinst. now split.
  - destruct Hfail as [e [Hopen Hinst]].
    unfold _read_raw_image, bind, try_except, lift, enter, _report_error,
      log_, ret.
    rewrite Hopen.
    destruct (isinstance e LibRawNonFatalError) eqn:Hnonfatal; [now split|].
    destruct Hinst as [Hinst|Hinst]; [discriminate|].
    rewrite Hinst. now split.
Qed.

Lemma ingest_known_failure (w : World) (image_path : string) (s : State) :
  known_decode_failure w (Path.of_string image_path) ->
  fst (ingest w image_path s) = Returned tt /\
  _IMAGE_INPUT_QUEUE (snd (ingest w image_path s)) = _IMAGE_INPUT_QUEUE s.
Proof.
  intros Hfail. unfold ingest, bind.
  destruct (@read_image_known_failure w _ s Hfail) as [Hnone Hqueue].
  destruct (read_image w (Path.of_string image_path) s) as [o s1].
  simpl in Hnone, Hqueue. subst o. now split.
Qed.

(** A move event is handled at once. *)
Lemma on_moved_ingests (w : World) (image_path : string) (s : State) :
  on_moved w (moved image_path) s
  = ingest w image_path (snd (log_ DEBUG (FileMoveDetected image_path) s)).
Proof.
  unfold on_moved, moved. cbn [event_type dest_path].
  now rewrite String.eqb_refl.
Qed.

(** C6, as the specification states it, fails on a decode failure that is
    none of the handled ones: a RAW file whose colour tile has 36 entries
    for 4 colour labels fails the assertion on their lengths, and the
    [AssertionError] leaves [read_image] and both handlers. *)
Lemma mosaic_mismatch_propagates :
  fst (read_image xtrans_world (Path.of_string "/scan/m42.raf") initial)
  = Raised AssertionError /\
  fst (on_moved xtrans_world (moved "/scan/m42.raf") initial)
  = Raised AssertionError /\
  option_map fst (on_created xtrans_world 2 (created "/scan/m42.raf") initial)
  = Some (Raised AssertionError).
Proof. repeat split. Qed.

(** C6, amended.  When the decode fails by an [OSError] of the FITS
    container or by a fatal or non-fatal LibRaw error of the RAW driver,
    [read_image] returns no image, both handlers return without an
    exception, and the input queue is as it was. *)
Theorem known_decode_failure_yields_no_image
    (w : World) (image_path : string) (s : State) :
  known_decode_failure w (Path.of_string image_path) ->
  fst (read_image w (Path.of_string image_path) s) = Returned None /\
  fst (on_moved w (moved image_path) s) = Returned tt /\
  _IMAGE_INPUT_QUEUE (snd (on_moved w (moved image_path) s))
  = _IMAGE_INPUT_QUEUE s /\
  forall fuel r,
    on_created w fuel (created image_path) s = Some r ->
    fst r = Returned tt /\ _IMAGE_INPUT_QUEUE (snd r) = _IMAGE_INPUT_QUEUE s.
Proof.
  intros Hfail.
  split; [apply (@read_image_known_failure w _ s Hfail)|].
  assert (Hmoved :
    fst (on_moved w (moved image_path) s) = Returned tt /\
    _IMAGE_INPUT_QUEUE (snd (on_moved w (moved image_path) s))
    = _IMAGE_INPUT_QUEUE s).
  { rewrite on_moved_ingests.
    destruct (@ingest_known_failure w image_path
                (snd (log_ DEBUG (FileMoveDetected image_path) s)) Hfail)
      as [Hret Hqueue].
    split; [exact Hret | now rewrite Hqueue]. }
  split; [apply Hmoved|]. split; [apply Hmoved|].
  intros fuel r. unfold on_created, created. cbn [event_type src_path].
  rewrite String.eqb_refl.
  destruct (wait_loop w fuel image_path 0 (-1)
              (snd (log_ DEBUG (FileCreationDetected image_path) s)))
    as [s2|] eqn:Hwait; [|discriminate].
  intros Hr. inversion Hr.
  apply wait_loop_keeps_queue in Hwait.
  destruct (@ingest_known_failure w image_path s2 Hfail) as [Hret Hqueue].
  split; [exact Hret|]. rewrite Hqueue, Hwait. reflexivity.
Qed.

Lemma known_decode_failure_yields_no_image_witness :
  known_decode_failure dslr_world (Path.of_string "/scan/m31.fits") /\
  fst (read_image dslr_world (Path.of_string "/scan/m31.fits") initial)
  = Returned None /\
  fst (on_moved dslr_world (moved "/scan/m31.fits") initial) = Returned tt /\
  _IMAGE_INPUT_QUEUE (snd (on_moved dslr_world (moved "/scan/m31.fits")
                             initial))
  = _IMAGE_INPUT_QUEUE initial.
Proof.
  assert (Hfail : known_decode_failure dslr_world
                    (Path.of_string "/scan/m31.fits")).
  { exists FileNotFoundError. split; reflexivity. }
  split; [exact Hfail|].
  destruct (@known_decode_failure_yields_no_image
              dslr_world "/scan/m31.fits" initial Hfail)
    as [Hnone [Hret [Hqueue _]]].
  split; [exact Hnone|]. split; [exact Hret | exact Hqueue].
Defined.

(** A file that grows between any two readings is not read after a
    hundred readings. *)
Lemma on_created_waits_for_equal_sizes_witness :
  on_created growing_world 100 (created "/scan/m42.cr2") initial = None.
Proof.
  apply (proj1 (proj2 (@on_created_waits_for_equal_sizes
                         growing_world "/scan/m42.cr2" "" initial))).
  intros n. simpl. lia.
Defined.

(** * Further properties *)

(** ** The signaling queue over a run of calls *)

Section SignalingQueueRuns.
Variable A : Type.

(** X3.  A call that did not return left the queue and its signals as they
    were. *)
Theorem failed_call_changes_nothing
    (q q1 : SignalingQueue.t A) (op : SignalingQueue.Op A) :
  SignalingQueue.step q op = (SignalingQueue.Failed, q1) -> q1 = q.
Proof.
  destruct op as [item block timeout | item | block timeout | ]; simpl.
  - destruct (put_emits_once q item block timeout)
      as [H | [o [H Ho]]]; rewrite H; [discriminate|].
    destruct o as [u| |]; [now destruct (Ho u) | | ];
      intros E; now inversion E.
  - unfold SignalingQueue.put_nowait, Queue.put_nowait.
    destruct (put_emits_once q item false None)
      as [H | [o [H Ho]]]; rewrite H; [discriminate|].
    destruct o as [u| |]; [now destruct (Ho u) | | ];
      intros E; now inversion E.
  - destruct (get_emits_once q block timeout)
      as [[item [rest [_ H]]] | [o [H Ho]]]; rewrite H; [discriminate|].
    destruct o as [u| |]; [now destruct (Ho u) | | ];
      intros E; now inversion E.
  - unfold SignalingQueue.get_nowait, Queue.get_nowait.
    destruct (get_emits_once q false None)
      as [[item [rest [_ H]]] | [o [H Ho]]]; rewrite H; [discriminate|].
    destruct o as [u| |]; [now destruct (Ho u) | | ];
      intros E; now inversion E.
Qed.

Lemma step_signals (q : SignalingQueue.t A) (op : SignalingQueue.Op A) :
  let (reply, q1) := SignalingQueue.step q op in
  SignalingQueue.emitted q1
  = SignalingQueue.emitted q
    ++ fst (signals_of_call op reply (SignalingQueue.qsize q))
  /\ SignalingQueue.qsize q1
     = snd (signals_of_call op reply (SignalingQueue.qsize q)).
Proof.
  destruct op as [item block timeout | item | block timeout | ]; simpl.
  - destruct (put_emits_once q item block timeout)
      as [H | [o [H Ho]]]; rewrite H.
    + simpl. split; [reflexivity|].
      unfold SignalingQueue.qsize, Queue.qsize. simpl.
      rewrite length_app. simpl. now rewrite Nat2Z.inj_add.
    + destruct o as [u| |]; [now destruct (Ho u) | | ]; simpl;
        now rewrite app_nil_r.
  - unfold SignalingQueue.put_nowait, Queue.put_nowait.
    destruct (put_emits_once q item false None)
      as [H | [o [H Ho]]]; rewrite H.
    + unfold SignalingQueue.emit, SignalingQueue.qsize, Queue.qsize.
      simpl. rewrite length_app, <- app_assoc. simpl.
      now rewrite Nat2Z.inj_add.
    + destruct o as [u| |]; [now destruct (Ho u) | | ]; simpl;
        now rewrite app_nil_r.
  - destruct (get_emits_once q block timeout)
      as [[item [rest [Hitems H]]] | [o [H Ho]]]; rewrite H.
    + unfold SignalingQueue.qsize, Queue.qsize. simpl. rewrite Hitems.
      simpl List.length.
      replace (Z.of_nat (S (List.length rest)) - 1)%Z
        with (Z.of_nat (List.length rest)) by lia.
      now split.
    + destruct o as [u| |]; [now destruct (Ho u) | | ]; simpl;
        now rewrite app_nil_r.
  - unfold SignalingQueue.get_nowait, Queue.get_nowait.
    destruct (get_emits_once q false None)
      as [[item [rest [Hitems H]]] | [o [H Ho]]]; rewrite H.
    + unfold SignalingQueue.emit, SignalingQueue.qsize, Queue.qsize.
      simpl. rewrite Hitems. simpl List.length.
      replace (Z.of_nat (S (List.length rest)) - 1)%Z
        with (Z.of_nat (List.length rest)) by lia.
      rewrite <- app_assoc. now split.
    + destruct o as [u| |]; [now destruct (Ho u) | | ]; simpl;
        now rewrite app_nil_r.
Qed.

(** X2.  Over any run of calls the queue emits, in the order of the calls, for
    each call that returned the size right after it: once for [put] and
    [get], twice for [put_nowait] and [get_nowait]; calls that did not
    return emit nothing. *)
Theorem run_signals (ops : list (SignalingQueue.Op A)) :
  forall q : SignalingQueue.t A,
    let (replies, q') := SignalingQueue.run q ops in
    SignalingQueue.emitted q'
    = SignalingQueue.emitted q
      ++ due_signals ops replies (SignalingQueue.qsize q).
Proof.
  induction ops as [|op ops IH]; intros q; simpl.
  - now rewrite app_nil_r.
  - pose proof (step_signals q op) as Hstep.
    destruct (SignalingQueue.step q op) as [r q1].
    destruct Hstep as [Hemit Hsize].
    specialize (IH q1).
    destruct (SignalingQueue.run q1 ops) as [rs q2].
    simpl.
    destruct (signals_of_call op r (SignalingQueue.qsize q))
      as [signals size'].
    simpl in Hemit, Hsize.
    now rewrite IH, Hemit, Hsize, app_assoc.
Qed.

(** A [put] on a bounded queue that is full does not return. *)
Lemma full_queue_refuses (q : Queue.t A) (item : A) block timeout :
  (0 < Queue.maxsize q)%Z ->
  (Queue.maxsize q <= Queue.qsize q)%Z ->
  exists o, Queue.put q item block timeout = (o, q) /\ not_returned o.
Proof.
  intros Hbounded Hfull. unfold Queue.put.
  destruct (Z.ltb_spec 0 (Queue.maxsize q)) as [_|H]; [|lia].
  destruct (Z.leb_spec (Queue.maxsize q) (Queue.qsize q)) as [_|H]; [|lia].
  destruct block; simpl;
    [destruct timeout as [tm|]; [destruct (tm <? 0)%Z|]|];
    eexists; (split; [reflexivity | intros b; discriminate]).
Qed.

Lemma step_keeps_capacity (q : SignalingQueue.t A)
    (op : SignalingQueue.Op A) :
  (0 < Queue.maxsize (SignalingQueue.base q))%Z ->
  (SignalingQueue.qsize q <= Queue.maxsize (SignalingQueue.base q))%Z ->
  let q1 := snd (SignalingQueue.step q op) in
  Queue.maxsize (SignalingQueue.base q1)
  = Queue.maxsize (SignalingQueue.base q)
  /\ (SignalingQueue.qsize q1
      <= Queue.maxsize (SignalingQueue.base q))%Z.
Proof.
  intros Hbounded Hsize.
  assert (Hput : forall item block timeout,
    let q1 := snd (SignalingQueue.put q item block timeout) in
    Queue.maxsize (SignalingQueue.base q1)
    = Queue.maxsize (SignalingQueue.base q)
    /\ (SignalingQueue.qsize q1
        <= Queue.maxsize (SignalingQueue.base q))%Z).
  { intros item block timeout.
    destruct (Z.le_gt_cases (Queue.maxsize (SignalingQueue.base q))
                            (SignalingQueue.qsize q)) as [Hfull|Hroom].
    - destruct (@full_queue_refuses (SignalingQueue.base q) item block timeout
                  Hbounded Hfull)
        as [o [H Ho]].
      unfold SignalingQueue.put. rewrite H.
      destruct o as [u| |]; [now destruct (Ho u) | | ];
        destruct q; simpl in *; now split.
    - destruct (put_emits_once q item block timeout)
        as [H | [o [H Ho]]]; rewrite H; simpl.
      + split; [reflexivity|].
        unfold SignalingQueue.qsize, Queue.qsize in *. simpl.
        rewrite length_app. simpl. lia.
      + now split. }
  assert (Hget : forall block timeout,
    let q1 := snd (SignalingQueue.get q block timeout) in
    Queue.maxsize (SignalingQueue.base q1)
    = Queue.maxsize (SignalingQueue.base q)
    /\ (SignalingQueue.qsize q1
        <= Queue.maxsize (SignalingQueue.base q))%Z).
  { intros block timeout.
    destruct (get_emits_once q block timeout)
      as [[item [rest [Hitems H]]] | [o [H Ho]]]; rewrite H; simpl.
    - split; [reflexivity|].
      unfold SignalingQueue.qsize, Queue.qsize in *. simpl.
      rewrite Hitems in Hsize. simpl List.length in Hsize. lia.
    - now split. }
  destruct op as [item block timeout | item | block timeout | ]; simpl.
  - specialize (Hput item block timeout).
    destruct (SignalingQueue.put q item block timeout) as [[u|e|] q1];
      exact Hput.
  - unfold SignalingQueue.put_nowait, Queue.put_nowait.
    specialize (Hput item false None).
    destruct (SignalingQueue.put q item false None) as [[u|e|] q1];
      exact Hput.
  - specialize (Hget block timeout).
    destruct (SignalingQueue.get q block timeout) as [[u|e|] q1];
      exact Hget.
  - unfold SignalingQueue.get_nowait, Queue.get_nowait.
    specialize (Hget false None).
    destruct (SignalingQueue.get q false None) as [[u|e|] q1];
      exact Hget.
Qed.

(** X4.  A queue built with a positive [maxsize] never holds more items than
    that, whatever calls are made. *)
Theorem bounded_queue_keeps_capacity (ops : list (SignalingQueue.Op A)) :
  forall q : SignalingQueue.t A,
    (0 < Queue.maxsize (SignalingQueue.base q))%Z ->
    (SignalingQueue.qsize q <= Queue.maxsize (SignalingQueue.base q))%Z ->
    (SignalingQueue.qsize (snd (SignalingQueue.run q ops))
     <= Queue.maxsize (SignalingQueue.base q))%Z.
Proof.
  induction ops as [|op ops IH]; intros q Hbounded Hsize; simpl.
  - exact Hsize.
  - destruct (@step_keeps_capacity q op Hbounded Hsize) as [Hmax Hsize1].
    destruct (SignalingQueue.step q op) as [r q1]. simpl in Hmax, Hsize1.
    specialize (IH q1). rewrite Hmax in IH.
    destruct (SignalingQueue.run q1 ops) as [rs q2]. simpl in *.
    apply IH; assumption.
Qed.

End SignalingQueueRuns.

Lemma bounded_queue_keeps_capacity_witness :
  (SignalingQueue.qsize
     (snd (SignalingQueue.run (SignalingQueue.init 1)
             [SignalingQueue.OpPutNowait "m31";
              SignalingQueue.OpPutNowait "m42";
              SignalingQueue.OpPut "m51" true (Some 1%Z)]))
   <= 1)%Z.
Proof.
  apply (@bounded_queue_keeps_capacity string
           [SignalingQueue.OpPutNowait "m31";
            SignalingQueue.OpPutNowait "m42";
            SignalingQueue.OpPut "m51" true (Some 1%Z)]
           (SignalingQueue.init 1)).
  - reflexivity.
  - discriminate.
Defined.

Lemma failed_call_changes_nothing_witness :
  SignalingQueue.mk (Queue.mk 0 []) [] = SignalingQueue.init (A:=string) 0.
Proof.
  apply (@failed_call_changes_nothing string (SignalingQueue.init 0)
           (SignalingQueue.mk (Queue.mk 0 []) []) SignalingQueue.OpGetNowait).
  reflexivity.
Defined.

(** ** The data store: observers *)

(** The loop refreshes [notified observers] and touches nothing else. *)
Lemma notify_loop_trace (observers : list Observer) :
  forall self : DataStore.t,
    let after := snd (DataStore.notify_loop observers self) in
    DataStore.refreshed after = DataStore.refreshed self ++ notified observers
    /\ settings after = settings self.
Proof.
  induction observers as [|observer rest IH]; intros self; simpl.
  - now rewrite app_nil_r.
  - destruct (update_according_to_app_state observer) as [u|e|]; simpl.
    + destruct (IH (DataStore.with_refreshed self (ident observer)))
        as [Htrace Hframe].
      rewrite Htrace, Hframe. simpl. now rewrite <- app_assoc.
    + now split.
    + now split.
Qed.

Lemma notified_all (observers : list Observer) :
  Forall returns observers -> notified observers = map ident observers.
Proof.
  induction 1 as [|observer rest Hret _ IH]; simpl; [reflexivity|].
  unfold returns in Hret. now rewrite Hret, IH.
Qed.

Lemma notify_loop_all_return (observers : list Observer) :
  Forall returns observers ->
  forall self, fst (DataStore.notify_loop observers self) = Returned tt.
Proof.
  induction 1 as [|observer rest Hret _ IH]; intros self; simpl;
    [reflexivity|].
  unfold returns in Hret. rewrite Hret. apply IH.
Qed.

(** X5.  When every refresh returns, a notification returns and has refreshed
    every registered observer once, in the order of registration. *)
Theorem notification_refreshes_in_order (self : DataStore.t) :
  Forall returns (DataStore._observers self) ->
  fst (DataStore._notify_observers self) = Returned tt /\
  DataStore.refreshed (snd (DataStore._notify_observers self))
  = DataStore.refreshed self ++ map ident (DataStore._observers self).
Proof.
  intros Hall. unfold DataStore._notify_observers. split.
  - now apply notify_loop_all_return.
  - destruct (notify_loop_trace (DataStore._observers self) self)
      as [Htrace _].
    now rewrite Htrace, notified_all.
Qed.

Lemma notification_refreshes_in_order_witness :
  fst (DataStore._notify_observers
         (DataStore.add_observer
            (DataStore.add_observer DataStore.init main_window) status_bar))
  = Returned tt /\
  DataStore.refreshed
    (snd (DataStore._notify_observers
            (DataStore.add_observer
               (DataStore.add_observer DataStore.init main_window)
               status_bar)))
  = [1; 3].
Proof.
  apply (@notification_refreshes_in_order
           (DataStore.add_observer
              (DataStore.add_observer DataStore.init main_window)
              status_bar)).
  repeat constructor.
Defined.

(** X6.  A refresh that raises ends the notification: the exception leaves the
    call, the observers registered before it have been refreshed, those
    registered after it have not. *)
Theorem notification_stops_at_failure
    (self : DataStore.t) (before after : list Observer) (bad : Observer)
    (e : PyExn) :
  DataStore._observers self = before ++ bad :: after ->
  Forall returns before ->
  update_according_to_app_state bad = Raised e ->
  fst (DataStore._notify_observers self) = Raised e /\
  DataStore.refreshed (snd (DataStore._notify_observers self))
  = DataStore.refreshed self ++ map ident before ++ [ident bad].
Proof.
  intros Hobs Hbefore Hbad. unfold DataStore._notify_observers.
  rewrite Hobs. clear Hobs. split.
  - revert self. induction Hbefore as [|observer rest Hret _ IH];
      intros self; simpl.
    + now rewrite Hbad.
    + unfold returns in Hret. rewrite Hret. apply IH.
  - destruct (notify_loop_trace (before ++ bad :: after) self)
      as [Htrace _].
    rewrite Htrace. f_equal. clear Htrace.
    induction Hbefore as [|observer rest Hret _ IH]; simpl.
    + now rewrite Hbad.
    + unfold returns in Hret. now rewrite Hret, IH.
Qed.

Lemma notification_stops_at_failure_witness :
  fst (DataStore._notify_observers
         (DataStore.with_observers DataStore.init
            [main_window; broken_panel; status_bar]))
  = Raised TypeError /\
  DataStore.refreshed
    (snd (DataStore._notify_observers
            (DataStore.with_observers DataStore.init
               [main_window; broken_panel; status_bar])))
  = [1; 2].
Proof.
  apply (@notification_stops_at_failure
           (DataStore.with_observers DataStore.init
              [main_window; broken_panel; status_bar])
           [main_window] [status_bar] broken_panel TypeError).
  - reflexivity.
  - repeat constructor.
  - reflexivity.
Defined.

(** X7.  A transition call changes the session flags and refreshes observers,
    and nothing else: the observers, the web server flag, the stacking
    mode, the alignment flag, the process result and the four queues are
    as before. *)
Theorem transition_keeps_settings
    (self : DataStore.t) (c : DataStore.Transition) :
  settings (snd (DataStore.call self c)) = settings self.
Proof.
  destruct c; simpl;
    unfold DataStore.record_session_start, DataStore.record_session_stop,
      DataStore.record_session_pause, DataStore._notify_observers;
    match goal with
    | |- context [DataStore.notify_loop ?obs ?st] =>
        destruct (notify_loop_trace obs st) as [_ Hframe]
    end; rewrite Hframe; reflexivity.
Qed.

(** X8.  Setting the web server flag stores it, leaves the session flags, and
    notifies the observers as a transition does. *)
Theorem web_server_flag_notifies (self : DataStore.t) (running : bool) :
  let after := snd (DataStore.set_web_server_is_running self running) in
  DataStore.web_server_is_running after = running /\
  session_flags after = session_flags self /\
  DataStore.refreshed after
  = DataStore.refreshed self ++ notified (DataStore._observers self) /\
  DataStore.refreshed after
  = DataStore.refreshed (snd (DataStore.record_session_start self)).
Proof.
  unfold DataStore.set_web_server_is_running, DataStore.record_session_start,
    DataStore._notify_observers. simpl.
  destruct (notify_loop_trace (DataStore._observers self)
              (DataStore.with_web_server_is_running self running))
    as [Htrace Hframe].
  destruct (notify_loop_trace (DataStore._observers self)
              (DataStore.with_session self true false false))
    as [Htrace' _].
  split; [|split; [|split]].
  - exact (f_equal (fun t => snd (fst (fst (fst (fst t))))) Hframe).
  - now rewrite notify_loop_keeps_flags.
  - exact Htrace.
  - now rewrite Htrace, Htrace'.
Qed.

Lemma remove_first_absent (who : nat) (observers : list Observer) :
  ~ In who (map ident observers) ->
  DataStore.remove_first who observers = Raised ValueError.
Proof.
  induction observers as [|o rest IH]; simpl; [reflexivity|].
  intros Hnot. destruct (Nat.eqb_spec (ident o) who) as [Heq|Hne].
  - exfalso. apply Hnot. now left.
  - rewrite IH; [reflexivity|]. intros Hin. apply Hnot. now right.
Qed.

Lemma remove_first_appended (who : nat) (observers : list Observer)
    (o : Observer) (more : list Observer) :
  ident o = who ->
  ~ In who (map ident observers) ->
  DataStore.remove_first who (observers ++ o :: more)
  = Returned (observers ++ more).
Proof.
  intros Ho. induction observers as [|o' rest IH]; simpl; intros Hnot.
  - rewrite Ho, Nat.eqb_refl. reflexivity.
  - destruct (Nat.eqb_spec (ident o') who) as [Heq|Hne].
    + exfalso. apply Hnot. now left.
    + rewrite IH; [reflexivity|]. intros Hin. apply Hnot. now right.
Qed.

(** X9.  Removing an observer that was never registered raises [ValueError] and
    leaves the store as it was. *)
Theorem remove_unregistered_observer
    (self : DataStore.t) (observer : Observer) :
  ~ registered self observer ->
  DataStore.remove_observer self observer = (Raised ValueError, self).
Proof.
  intros Hnot. unfold DataStore.remove_observer.
  now rewrite remove_first_absent.
Qed.

Lemma remove_unregistered_observer_witness :
  DataStore.remove_observer DataStore.init main_window
  = (Raised ValueError, DataStore.init).
Proof.
  apply (@remove_unregistered_observer DataStore.init main_window).
  intros H. exact H.
Defined.

(** X10.  Registering an observer and removing it gives the store back; but
    nothing guards against a second registration, and one removal then
    leaves the observer registered once. *)
Theorem add_then_remove_observer
    (self : DataStore.t) (observer : Observer) :
  ~ registered self observer ->
  DataStore.remove_observer (DataStore.add_observer self observer) observer
  = (Returned tt, self) /\
  DataStore.remove_observer
    (DataStore.add_observer (DataStore.add_observer self observer) observer)
    observer
  = (Returned tt, DataStore.add_observer self observer).
Proof.
  intros Hnot. unfold DataStore.remove_observer, DataStore.add_observer.
  simpl. split.
  - rewrite remove_first_appended; [|reflexivity|exact Hnot].
    rewrite app_nil_r. now destruct self.
  - rewrite <- app_assoc. simpl.
    rewrite remove_first_appended; [|reflexivity|exact Hnot].
    reflexivity.
Qed.

Lemma add_then_remove_observer_witness :
  DataStore.remove_observer
    (DataStore.add_observer DataStore.init main_window) main_window
  = (Returned tt, DataStore.init) /\
  DataStore.remove_observer
    (DataStore.add_observer
       (DataStore.add_observer DataStore.init main_window) main_window)
    main_window
  = (Returned tt, DataStore.add_observer DataStore.init main_window).
Proof.
  apply (@add_then_remove_observer DataStore.init main_window).
  intros H. exact H.
Defined.

(** ** The data store: the stacking mode *)

(** X11.  Whatever text is assigned, the stored mode, once stripped, is "Sum" or
    "Mean", and assigning the stored mode again changes nothing; no observer
    is refreshed and the session flags stay. *)
Theorem stacking_mode_stays_valid (self : DataStore.t) (text : string) :
  let after := DataStore.set_stacking_mode self text in
  (strip (DataStore.stacking_mode after) = "Sum" \/
   strip (DataStore.stacking_mode after) = "Mean") /\
  DataStore.set_stacking_mode after (DataStore.stacking_mode after) = after /\
  DataStore.refreshed after = DataStore.refreshed self /\
  session_flags after = session_flags self.
Proof.
  intros after. subst after.
  destruct (str_in (strip text) [STACKING_MODE_MEAN; STACKING_MODE_SUM])
    eqn:Hin; unfold DataStore.set_stacking_mode; rewrite Hin;
    cbn [DataStore.stacking_mode DataStore._stacking_mode
         DataStore.with_stacking_mode].
  - rewrite Hin. split; [|now repeat split].
    unfold str_in in Hin. cbn [existsb] in Hin.
    destruct (String.eqb_spec (strip text) STACKING_MODE_MEAN) as [->|_];
      [now right|].
    destruct (String.eqb_spec (strip text) STACKING_MODE_SUM) as [->|_];
      [now left|].
    discriminate.
  - split; [now right|]. now repeat split.
Qed.

(** ** The session object *)

(** X12.  A session given an allowed status, at construction or by [set_status],
    answers its three predicates, and exactly the one of that status is
    true, whatever the emission of the signal does. *)
Theorem session_status_one_predicate
    (emit : Outcome unit) (self : Session.t) (status : Z) :
  Session.allowed status = true ->
  let after := snd (Session.set_status emit self status) in
  Session.init status = after /\
  ((status = Session.running /\
    (Session.is_running after, Session.is_stopped after,
     Session.is_paused after)
    = (Returned true, Returned false, Returned false)) \/
   (status = Session.stopped /\
    (Session.is_running after, Session.is_stopped after,
     Session.is_paused after)
    = (Returned false, Returned true, Returned false)) \/
   (status = Session.paused /\
    (Session.is_running after, Session.is_stopped after,
     Session.is_paused after)
    = (Returned false, Returned false, Returned true))).
Proof.
  intros Hallowed. unfold Session.set_status, Session.init.
  rewrite Hallowed. simpl. split; [reflexivity|].
  unfold Session.allowed, Session._ALLOWED_STATUSES in Hallowed.
  cbn [existsb] in Hallowed.
  destruct (Z.eqb_spec status Session.stopped) as [Heq|_];
    [right; left; now rewrite Heq|].
  destruct (Z.eqb_spec status Session.running) as [Heq|_];
    [left; now rewrite Heq|].
  destruct (Z.eqb_spec status Session.paused) as [Heq|_];
    [right; right; now rewrite Heq|].
  discriminate.
Qed.

Lemma session_status_one_predicate_witness :
  Session.init Session.paused
  = snd (Session.set_status (Raised AttributeError)
           (Session.init Session.stopped) Session.paused) /\
  Session.is_paused (Session.init Session.paused) = Returned true.
Proof.
  destruct (@session_status_one_predicate (Raised AttributeError)
              (Session.init Session.stopped) Session.paused eq_refl)
    as [Hinit _].
  split; [exact Hinit | reflexivity].
Defined.

(** X13.  A status that is not allowed is ignored: [set_status] returns without
    a change or a signal, and a session constructed with it has no status,
    so that each predicate raises [AttributeError]. *)
Theorem session_ignores_unknown_status
    (emit : Outcome unit) (self : Session.t) (status : Z) :
  Session.allowed status = false ->
  Session.set_status emit self status = (Returned tt, self) /\
  Session.is_running (Session.init status) = Raised AttributeError /\
  Session.is_stopped (Session.init status) = Raised AttributeError /\
  Session.is_paused (Session.init status) = Raised AttributeError.
Proof.
  intros Hallowed. unfold Session.set_status, Session.init.
  rewrite Hallowed. now repeat split.
Qed.

Lemma session_ignores_unknown_status_witness :
  Session.set_status (Returned tt) (Session.init Session.running) 3
  = (Returned tt, Session.init Session.running) /\
  Session.is_running (Session.init 3) = Raised AttributeError /\
  Session.is_stopped (Session.init 3) = Raised AttributeError /\
  Session.is_paused (Session.init 3) = Raised AttributeError.
Proof.
  apply (@session_ignores_unknown_status (Returned tt)
           (Session.init Session.running) 3%Z).
  reflexivity.
Defined.

(** ** Images: kinds and sizes *)

(** X14.  No image is of two kinds among colour, black and white, and to be
    debayered; and an image is of no kind exactly when it has no bayer
    pattern and fewer than two dimensions. *)
Theorem image_kinds_exclusive (img : Image.t) :
  Image.is_color img && Image.needs_debayering img = false /\
  Image.is_color img && Image.is_bw img = false /\
  Image.is_bw img && Image.needs_debayering img = false /\
  (Image.is_color img || Image.is_bw img || Image.needs_debayering img
   = false <->
   Image._bayer_pattern img = None /\ (ndim (Image._data img) < 2)%Z).
Proof.
  unfold Image.is_color, Image.is_bw, Image.needs_debayering.
  assert (Hrank : (0 <= ndim (Image._data img))%Z) by (unfold ndim; lia).
  destruct (Image._bayer_pattern img) as [pattern|];
    destruct (Z.ltb_spec 2 (ndim (Image._data img)));
    destruct (Z.ltb_spec (ndim (Image._data img)) 3);
    destruct (Z.eqb_spec (ndim (Image._data img)) 2);
    simpl; repeat split; try reflexivity; try lia; try discriminate;
    try (intros [Hpat _]; discriminate Hpat); try (intros [_ Hlow]; lia).
Qed.

Lemma py_min_member (l : list Z) :
  l <> [] ->
  exists m, py_min l = Returned m /\ In m l /\ forall d, In d l -> (m <= d)%Z.
Proof.
  destruct l as [|x l]; [congruence|]. intros _.
  exists (fold_left Z.min l x). split; [reflexivity|].
  apply fold_min_spec.
Qed.

(** Removing a member cuts its first occurrence out. *)
Lemma list_remove_split (x : Z) (l : list Z) :
  In x l ->
  exists l1 l2, l = l1 ++ x :: l2 /\ ~ In x l1 /\
                list_remove x l = Returned (l1 ++ l2).
Proof.
  induction l as [|y l IH]; simpl; [intros []|].
  intros Hin. destruct (Z.eqb_spec x y) as [->|Hne].
  - exists [], l. repeat split. intros [].
  - destruct IH as [l1 [l2 [Hl [Hnot Hrm]]]]; [destruct Hin; congruence|].
    exists (y :: l1), l2. rewrite Hrm, Hl. repeat split.
    intros [Heq|Hin1]; [congruence | now apply Hnot].
Qed.

Lemma dimensions_split (img : Image.t) :
  ndim (Image._data img) <> 2%Z ->
  shape (Image._data img) <> [] ->
  exists m l1 l2,
    py_min (shape (Image._data img)) = Returned m /\
    shape (Image._data img) = l1 ++ m :: l2 /\
    ~ In m l1 /\
    (forall d, In d (shape (Image._data img)) -> (m <= d)%Z) /\
    Image.dimensions img = Returned (l1 ++ l2).
Proof.
  intros Hrank Hshape. unfold Image.dimensions.
  destruct (Z.eqb_spec (ndim (Image._data img)) 2) as [H|_]; [contradiction|].
  destruct (py_min_member Hshape) as [m [Hmin [Hin Hle]]].
  destruct (list_remove_split _ _ Hin) as [l1 [l2 [Hl [Hnot Hrm]]]].
  exists m, l1, l2. rewrite Hmin. cbv beta iota delta [bindO].
  now repeat split.
Qed.

(** X15.  For an array that is not of rank 2 and has at least one axis,
    [dimensions] is the shape without the first of its smallest extents,
    the other axes keeping their order. *)
Theorem dimensions_drops_first_smallest_axis (img : Image.t) :
  ndim (Image._data img) <> 2%Z ->
  shape (Image._data img) <> [] ->
  exists m l1 l2,
    shape (Image._data img) = l1 ++ m :: l2 /\
    ~ In m l1 /\
    (forall d, In d (shape (Image._data img)) -> (m <= d)%Z) /\
    Image.dimensions img = Returned (l1 ++ l2).
Proof.
  intros Hrank Hshape.
  destruct (dimensions_split img Hrank Hshape)
    as [m [l1 [l2 [_ [Hl [Hnot [Hle Hdims]]]]]]].
  now exists m, l1, l2.
Qed.

Lemma dimensions_drops_first_smallest_axis_witness :
  exists m l1 l2,
    shape (Image._data channels_last) = l1 ++ m :: l2 /\
    ~ In m l1 /\
    (forall d, In d (shape (Image._data channels_last)) -> (m <= d)%Z) /\
    Image.dimensions channels_last = Returned (l1 ++ l2).
Proof.
  apply (@dimensions_drops_first_smallest_axis channels_last);
    discriminate.
Defined.

(** X16.  An array with fewer than two axes has no width and no height: both
    raise [ValueError]. *)
Theorem width_height_below_rank_2 (img : Image.t) :
  (ndim (Image._data img) < 2)%Z ->
  Image.width img = Raised ValueError /\
  Image.height img = Raised ValueError.
Proof.
  unfold Image.width, Image.height, Image.dimensions, ndim.
  destruct (shape (Image._data img)) as [|a [|b tl]]; simpl;
    intros Hrank; try lia.
  - now split.
  - rewrite Z.eqb_refl. now split.
Qed.

Lemma width_height_below_rank_2_witness :
  Image.width spectrum = Raised ValueError /\
  Image.height spectrum = Raised ValueError.
Proof.
  apply (@width_height_below_rank_2 spectrum). reflexivity.
Defined.

(** X17.  For an array of rank 3, [width] and [height] are the largest and the
    smallest of the two extents that a smallest one leaves, wherever the
    three axes are: a colour image has one size whether its channels come
    first, last or in the middle, and an image with fewer rows than
    channels is measured by its channels. *)
Theorem rank_3_size_ignores_axis_order (img : Image.t) (a b c : Z) :
  Permutation (shape (Image._data img)) [c; a; b] ->
  (c <= a)%Z -> (c <= b)%Z ->
  Image.width img = Returned (Z.max a b) /\
  Image.height img = Returned (Z.min a b).
Proof.
  intros Hperm Hca Hcb.
  assert (Hlen : List.length (shape (Image._data img)) = 3)
    by (now rewrite (Permutation_length Hperm)).
  destruct (@dimensions_split img)
    as [m [l1 [l2 [_ [Hshape [_ [Hle Hdims]]]]]]].
  { unfold ndim. rewrite Hlen. discriminate. }
  { intros Hnil. rewrite Hnil in Hlen. discriminate. }
  assert (Hm : m = c).
  { assert (Hmin : In m (shape (Image._data img)))
      by (rewrite Hshape; apply in_elt).
    assert (Hcin : In c (shape (Image._data img)))
      by (apply (Permutation_in _ (Permutation_sym Hperm)); now left).
    specialize (Hle c Hcin).
    apply (Permutation_in _ Hperm) in Hmin.
    destruct Hmin as [<-|[<-|[<-|[]]]]; lia. }
  subst m.
  assert (Hrest : Permutation (l1 ++ l2) [a; b]).
  { apply Permutation_cons_inv with (a := c).
    rewrite <- Hperm, Hshape. apply Permutation_middle. }
  unfold Image.width, Image.height. rewrite Hdims. simpl.
  apply Permutation_sym, Permutation_length_2_inv in Hrest.
  destruct Hrest as [->| ->]; simpl; [now split|].
  now rewrite Z.max_comm, Z.min_comm.
Qed.

Lemma rank_3_size_ignores_axis_order_witness :
  (Image.width channels_first = Returned (Z.max 480 640) /\
   Image.height channels_first = Returned (Z.min 480 640)) /\
  (Image.width channels_last = Returned (Z.max 480 640) /\
   Image.height channels_last = Returned (Z.min 480 640)).
Proof.
  split.
  - apply (@rank_3_size_ignores_axis_order channels_first 480 640 3);
      [apply Permutation_refl | lia | lia].
  - apply (@rank_3_size_ignores_axis_order channels_last 480 640 3);
      [|lia|lia].
    apply Permutation_sym.
    apply (@Permutation_cons_append Z [480; 640]%Z 3%Z).
Defined.

Lemma shape_eqb_eq (s1 : list Z) :
  forall s2, Image.shape_eqb s1 s2 = true <-> s1 = s2.
Proof.
  induction s1 as [|x t1 IH]; intros [|y t2]; simpl;
    try (split; [discriminate | congruence]); [now split|].
  rewrite andb_true_iff, Z.eqb_eq, IH. split.
  - now intros [-> ->].
  - intros H. now inversion H.
Qed.

(** X18.  Two images that [is_same_shape_as] accepts have the same dimensions,
    width and height, and are both colour images or both not; the samples
    and the bayer patterns are not compared. *)
Theorem same_shape_same_size (self other : Image.t) :
  Image.is_same_shape_as self other = true ->
  Image.dimensions self = Image.dimensions other /\
  Image.width self = Image.width other /\
  Image.height self = Image.height other /\
  Image.is_color self = Image.is_color other.
Proof.
  unfold Image.is_same_shape_as. rewrite shape_eqb_eq. intros Hshape.
  unfold Image.width, Image.height, Image.dimensions, Image.is_color, ndim.
  now rewrite Hshape.
Qed.

Lemma same_shape_same_size_witness :
  Image.dimensions portrait
  = Image.dimensions
      (Image.set_bayer_pattern
         (Image.init {| shape := [1000; 500]%Z; buffer := [7]%Z |})
         (Some "GRBG")) /\
  Image.width portrait
  = Image.width
      (Image.set_bayer_pattern
         (Image.init {| shape := [1000; 500]%Z; buffer := [7]%Z |})
         (Some "GRBG")) /\
  Image.height portrait
  = Image.height
      (Image.set_bayer_pattern
         (Image.init {| shape := [1000; 500]%Z; buffer := [7]%Z |})
         (Some "GRBG")) /\
  Image.is_color portrait
  = Image.is_color
      (Image.set_bayer_pattern
         (Image.init {| shape := [1000; 500]%Z; buffer := [7]%Z |})
         (Some "GRBG")).
Proof.
  apply (@same_shape_same_size portrait
           (Image.set_bayer_pattern
              (Image.init {| shape := [1000; 500]%Z; buffer := [7]%Z |})
              (Some "GRBG"))).
  reflexivity.
Defined.

(** ** The colour tile of a RAW file, in general *)

(** X21.  For a tile of any size whose indices all name one of as many colour
    labels, the loop returns as many characters, the i-th being
    [colors[indices[i]]]; an index may occur more than once. *)
Theorem bayer_pattern_of_any_tile (indices : list Z) (colors : string) :
  List.length indices = String.length colors ->
  Forall (in_range (len colors)) indices ->
  exists canonical,
    bayer_pattern_of indices colors = Returned canonical /\
    String.length canonical = List.length indices /\
    forall i, i < List.length indices ->
      String.get i canonical
      = String.get (Z.to_nat (nth i indices 0%Z)) colors.
Proof.
  intros Hlen Hrange.
  assert (Hn : Z.of_nat (List.length indices) = len colors)
    by (unfold len; now rewrite Hlen).
  destruct (@bayer_loop_returns colors (len colors) indices eq_refl
              Hrange "") as [canonical [Hrun Hchars]].
  exists canonical. split; [|exact Hchars].
  unfold bayer_pattern_of. now rewrite Hn, Z.eqb_refl.
Qed.

Lemma bayer_pattern_of_any_tile_witness :
  exists canonical,
    bayer_pattern_of [2; 1; 1; 0; 0; 2]%Z "RGBRGB" = Returned canonical /\
    String.length canonical = 6 /\
    forall i, i < 6 ->
      String.get i canonical
      = String.get (Z.to_nat (nth i [2; 1; 1; 0; 0; 2]%Z 0%Z)) "RGBRGB".
Proof.
  apply (@bayer_pattern_of_any_tile [2; 1; 1; 0; 0; 2]%Z "RGBRGB").
  - reflexivity.
  - repeat constructor; lia.
Defined.

Lemma bayer_loop_asserts (n : Z) (colors : string) (before : list Z) :
  n = len colors ->
  Forall (in_range n) before ->
  forall (bad : Z) (after : list Z) (acc : string),
    (n <= bad)%Z ->
    bayer_loop n colors (before ++ bad :: after) acc = Raised AssertionError.
Proof.
  intros Hn Hbefore bad after.
  induction Hbefore as [|index rest Hin _ IH]; intros acc Hbad; simpl.
  - destruct (Z.ltb_spec bad n); [lia | reflexivity].
  - destruct Hin as [Hlo Hhi].
    destruct (Z.ltb_spec index n); [|lia].
    destruct (@str_getitem_in_range colors index) as [c [_ Hitem]];
      [lia|].
    rewrite Hitem. simpl. now apply IH.
Qed.

(** X22.  The loop fails its assertions, with [AssertionError], when the
    tile and the labels differ in number, and when the first index that is
    not in range is one that is not below their number. *)
Theorem bayer_pattern_of_asserts (indices : list Z) (colors : string) :
  List.length indices <> String.length colors \/
  (exists before bad after,
      indices = before ++ bad :: after /\
      Forall (in_range (len colors)) before /\
      (len colors <= bad)%Z) ->
  bayer_pattern_of indices colors = Raised AssertionError.
Proof.
  unfold bayer_pattern_of.
  destruct (Z.eqb_spec (Z.of_nat (List.length indices)) (len colors))
    as [Heq|Hne].
  - intros [Hlen | [before [bad [after [-> [Hbefore Hbad]]]]]].
    + unfold len in Heq. lia.
    + rewrite Heq. now apply bayer_loop_asserts.
  - reflexivity.
Qed.

Lemma bayer_pattern_of_asserts_witness :
  bayer_pattern_of [0; 1; 4; 2]%Z "RGBG" = Raised AssertionError.
Proof.
  apply (@bayer_pattern_of_asserts [0; 1; 4; 2]%Z "RGBG").
  right. exists [0; 1]%Z, 4%Z, [2]%Z.
  split; [reflexivity|]. split; [|discriminate].
  repeat constructor; lia.
Defined.

(** ** File names and suffixes *)

#[local] Arguments Ascii.eqb : simpl never.

Lemma length_append (s1 s2 : string) :
  String.length (s1 ++ s2) = String.length s1 + String.length s2.
Proof. induction s1 as [|c s1 IH]; simpl; [reflexivity | now rewrite IH]. Qed.

Lemma contains_append (c : ascii) (s1 s2 : string) :
  contains c (s1 ++ s2) = contains c s1 || contains c s2.
Proof.
  induction s1 as [|d s1 IH]; simpl; [reflexivity|].
  now rewrite IH, orb_assoc.
Qed.

Lemma split_slash_no_slash (file : string) :
  contains "/" file = false ->
  forall current, Path.split_slash file current = [(current ++ file)%string].
Proof.
  induction file as [|c file IH]; simpl; intros Hno current.
  - now rewrite append_empty_r.
  - apply orb_false_iff in Hno. destruct Hno as [Hc Hfile].
    rewrite Ascii.eqb_sym, Hc, (IH Hfile), append_assoc. reflexivity.
Qed.

Lemma split_slash_last (file : string) :
  contains "/" file = false ->
  forall directory current,
    Path.split_slash (directory ++ String "/" file) current
    = Path.split_slash directory current ++ [file].
Proof.
  intros Hno. induction directory as [|c directory IH]; simpl;
    intros current.
  - now rewrite (split_slash_no_slash _ Hno).
  - destruct (Ascii.eqb c "/"); simpl; now rewrite IH.
Qed.

Lemma rfind_absent (c : ascii) (s : string) :
  contains c s = false -> rfind c s = (-1)%Z.
Proof.
  induction s as [|d s IH]; simpl; [reflexivity|].
  intros Hno. apply orb_false_iff in Hno. destruct Hno as [Hc Hs].
  now rewrite (IH Hs), Hc.
Qed.

Lemma rfind_last (c : ascii) (ext : string) :
  contains c ext = false ->
  forall stem, rfind c (stem ++ String c ext) = len stem.
Proof.
  intros Hno. induction stem as [|d stem IH]; simpl.
  - now rewrite (rfind_absent _ _ Hno), Ascii.eqb_refl.
  - rewrite IH. unfold len.
    destruct (Z.leb_spec 0 (Z.of_nat (String.length stem))); simpl; lia.
Qed.

Lemma substring_all (s : string) : substring 0 (String.length s) s = s.
Proof. induction s as [|c s IH]; simpl; [reflexivity | now rewrite IH]. Qed.

Lemma substring_drop (s1 s2 : string) :
  substring (String.length s1) (String.length s2) (s1 ++ s2) = s2.
Proof.
  induction s1 as [|c s1 IH]; simpl; [apply substring_all | exact IH].
Qed.

(** For a path that ends in [/stem.ext], where the extension has neither
    a dot nor a slash and the stem has no slash and is not empty, [name] is
    [stem.ext] and [suffix] is [.ext], whatever the directories are. *)
Lemma name_and_suffix_of_file (directory stem ext : string) :
  contains "/" stem = false ->
  contains "/" ext = false ->
  contains "." ext = false ->
  stem <> "" ->
  ext <> "" ->
  let path :=
    Path.of_string (directory ++ String "/" (stem ++ String "." ext)) in
  Path.name path = (stem ++ String "." ext)%string /\
  Path.suffix path = String "." ext.
Proof.
  intros Hstem Hext Hdot Hstem_ne Hext_ne path.
  set (file := (stem ++ String "." ext)%string).
  assert (Hfile : contains "/" file = false).
  { unfold file. rewrite contains_append. simpl. now rewrite Hstem, Hext. }
  assert (Hkept : negb (String.eqb file "" || String.eqb file ".") = true).
  { unfold file. destruct stem as [|c [|d stem]]; [congruence | |];
      simpl; now destruct (Ascii.eqb c "."). }
  assert (Hname : Path.name path = file).
  { unfold path, Path.name, Path.of_string. cbn [Path.parts].
    rewrite (split_slash_last _ Hfile), filter_app. cbn [filter].
    rewrite Hkept. apply last_last. }
  split; [exact Hname|].
  unfold Path.suffix. rewrite Hname. unfold file.
  rewrite (rfind_last _ _ Hdot). unfold len, slice_from.
  rewrite length_append. simpl String.length.
  assert (0 < String.length stem)
    by (destruct stem; [congruence | simpl; lia]).
  assert (0 < String.length ext)
    by (destruct ext; [congruence | simpl; lia]).
  destruct (Z.ltb_spec 0 (Z.of_nat (String.length stem))); [|lia].
  destruct (Z.ltb_spec (Z.of_nat (String.length stem))
              (Z.of_nat (String.length stem + S (String.length ext)) - 1));
    [|lia].
  simpl. rewrite Nat2Z.id.
  replace (String.length stem + S (String.length ext) - String.length stem)
    with (String.length (String "." ext)) by (simpl; lia).
  apply substring_drop.
Qed.

(** ** Reading a file *)

Lemma fit_reader_frame (w : World) (path : Path.t) (s : State) :
  scanner_and_queue (snd (_read_fit_image w path s)) = scanner_and_queue s
  /\ reader_calls (snd (_read_fit_image w path s))
     = reader_calls s ++ [(FitReader, path)].
Proof.
  unfold _read_fit_image, bind, try_except, lift, enter, _report_error,
    log_, ret, header_getitem.
  destruct (fits_open w (resolve w path)) as [[|hdu rest]|e|]; simpl.
  - now split.
  - destruct (header_contains "BAYERPAT" (header hdu)); simpl;
      [|now split].
    destruct (find (fun kv => String.eqb (fst kv) "BAYERPAT") (header hdu));
      simpl; now split.
  - destruct (isinstance e OSError); simpl; now split.
  - now split.
Qed.

Lemma raw_reader_frame (w : World) (path : Path.t) (s : State) :
  scanner_and_queue (snd (_read_raw_image w path s)) = scanner_and_queue s
  /\ reader_calls (snd (_read_raw_image w path s))
     = reader_calls s ++ [(RawReader, path)].
Proof.
  unfold _read_raw_image, bind, try_except, lift, enter, _report_error,
    log_, ret.
  destruct (rawpy_imread w (resolve w path)) as [raw|e|]; simpl.
  - destruct (flatten (raw_pattern raw)) as [indices|e|]; simpl.
    + destruct (bayer_pattern_of indices (color_desc raw)) as [p|e|];
        simpl; [now split | | now split].
      destruct (isinstance e LibRawNonFatalError); simpl; [now split|].
      destruct (isinstance e LibRawFatalError); simpl; now split.
    + destruct (isinstance e LibRawNonFatalError); simpl; [now split|].
      destruct (isinstance e LibRawFatalError); simpl; now split.
    + now split.
  - destruct (isinstance e LibRawNonFatalError); simpl; [now split|].
    destruct (isinstance e LibRawFatalError); simpl; now split.
  - now split.
Qed.

Lemma read_image_frame (w : World) (path : Path.t) (s : State) :
  ignore_loop _IGNORED_FILENAME_START_PATTERNS (Path.name path) = false ->
  reader_calls (snd (read_image w path s))
  = reader_calls s ++ [(reader_of path, path)]
  /\ scanner_and_queue (snd (read_image w path s)) = scanner_and_queue s.
Proof.
  intros Hkept. unfold read_image, reader_of. rewrite Hkept. cbn [negb].
  unfold bind.
  destruct (str_in (lower (Path.suffix path)) [".fit"; ".fits"]).
  - destruct (fit_reader_frame w path s) as [Hframe Hcalls].
    destruct (_read_fit_image w path s) as [[[img|]|e|] s1];
      simpl in *; now split.
  - destruct (raw_reader_frame w path s) as [Hframe Hcalls].
    destruct (_read_raw_image w path s) as [[[img|]|e|] s1];
      simpl in *; now split.
Qed.

(** X23.  A file whose name is not ignored goes to one reader, once: the FITS
    reader when its suffix, in lower case, is [.fit] or [.fits], the RAW
    reader for any other suffix or none; and reading it changes neither the
    scanner nor the input queue. *)
Theorem read_image_enters_one_reader
    (w : World) (path : Path.t) (s : State) :
  ignore_loop _IGNORED_FILENAME_START_PATTERNS (Path.name path) = false ->
  reader_calls (snd (read_image w path s))
  = reader_calls s ++ [(reader_of path, path)]
  /\ scanner_and_queue (snd (read_image w path s)) = scanner_and_queue s.
Proof. apply read_image_frame. Qed.

Lemma read_image_enters_one_reader_witness :
  reader_calls
    (snd (read_image dslr_world (Path.of_string "/scan/m31.FiTs") initial))
  = [(FitReader, Path.of_string "/scan/m31.FiTs")]
  /\ scanner_and_queue
       (snd (read_image dslr_world (Path.of_string "/scan/m31.FiTs")
               initial))
     = scanner_and_queue initial.
Proof.
  apply (@read_image_enters_one_reader dslr_world
           (Path.of_string "/scan/m31.FiTs") initial).
  reflexivity.
Defined.

Lemma header_contains_first_card (key : string) (h : list (string * string)) :
  header_contains key h
  = match first_card key h with Some _ => true | None => false end.
Proof.
  unfold header_contains, first_card.
  induction h as [|kv h IH]; simpl; [reflexivity|].
  destruct (String.eqb (fst kv) key); simpl; [reflexivity | exact IH].
Qed.

(** X25.  A FITS file that opens gives the image of its first unit: its array,
    as bayer pattern the value of its first BAYERPAT card, unchanged, or
    none when it has no such card, the resolved path as its origin, and no
    destination yet. *)
Theorem fits_image_is_first_unit
    (w : World) (path : Path.t) (s : State) (hdu : HDU) (rest : list HDU) :
  ignore_loop _IGNORED_FILENAME_START_PATTERNS (Path.name path) = false ->
  reader_of path = FitReader ->
  fits_open w (resolve w path) = Returned (hdu :: rest) ->
  fst (read_image w path s)
  = Returned (Some (Image.mk (data hdu)
                             (first_card "BAYERPAT" (header hdu))
                             ("FILE : " ++ resolve w path)
                             "UNDEFINED")).
Proof.
  intros Hkept Hreader Hopen. unfold read_image, reader_of in *.
  rewrite Hkept. cbn [negb].
  destruct (str_in (lower (Path.suffix path)) [".fit"; ".fits"]);
    [|discriminate].
  unfold _read_fit_image, bind, try_except, lift, enter, log_, ret,
    header_getitem.
  rewrite Hopen, header_contains_first_card. unfold first_card.
  destruct (find (fun kv => String.eqb (fst kv) "BAYERPAT") (header hdu));
    reflexivity.
Qed.

Lemma fits_image_is_first_unit_witness :
  fst (read_image fits_world (Path.of_string "/scan/m31.fit") initial)
  = Returned (Some (Image.mk {| shape := [4; 6]%Z; buffer := [] |}
                             (Some "GRBG")
                             "FILE : /scan/m31.fit"
                             "UNDEFINED")).
Proof.
  apply (@fits_image_is_first_unit fits_world
           (Path.of_string "/scan/m31.fit") initial
           {| data := {| shape := [4; 6]%Z; buffer := [] |};
              header := [("SIMPLE", "T"); ("BAYERPAT", "GRBG")] |} []);
    reflexivity.
Defined.



(** X27.  A move event is handled without a look at the size of the file: what
    [on_moved] does is the same whatever the readings of the sizes are. *)
Theorem on_moved_reads_no_size
    (w : World) (sizes : string -> nat -> N) (event : Event) (s : State) :
  on_moved (with_file_size w sizes) event s = on_moved w event s.
Proof. destruct w. reflexivity. Qed.

(** ** The scanner over its life *)

(** X28.  Starting sets the scan flag and schedules an observer on the
    configured folder; a pause after it clears both, leaves the input queue
    alone and
    has logged three lines; and pausing a scanner that is paused does
    nothing at all. *)
Theorem start_then_pause (w : World) (s : State) :
  let started := snd (start w s) in
  let paused := snd (pause started) in
  fst (start w s) = Returned tt /\
  scan_in_progress started = true /\
  _observer started = Some (get_scan_folder_path w) /\
  scan_in_progress paused = false /\
  _observer paused = None /\
  _IMAGE_INPUT_QUEUE paused = _IMAGE_INPUT_QUEUE s /\
  logged paused
  = logged s ++ [(INFO, FolderScannerStarted);
                 (INFO, StoppingFolderScanner);
                 (INFO, FolderScannerStopped)] /\
  pause paused = (Returned tt, paused).
Proof.
  simpl. repeat split. now rewrite <- !app_assoc.
Qed.

(** ** Moving the colour axis *)

Lemma index_of_split (m : Z) (l : list Z) :
  In m l ->
  exists l1 l2, l = l1 ++ m :: l2 /\ ~ In m l1 /\
                index_of m l = Z.of_nat (List.length l1).
Proof.
  induction l as [|y l IH]; cbn [In index_of]; [intros []|].
  intros Hin. destruct (Z.eqb_spec m y) as [->|Hne].
  - exists [], l. repeat split. intros [].
  - destruct IH as [l1 [l2 [Hl [Hnot Hidx]]]]; [destruct Hin; congruence|].
    exists (y :: l1), l2. rewrite Hidx. split; [now rewrite Hl|]. split.
    + intros [Heq|Hin1]; [congruence | now apply Hnot].
    + simpl List.length. lia.
Qed.

Lemma filter_all (A : Type) (p : A -> bool) (l : list A) :
  (forall x, In x l -> p x = true) -> filter p l = l.
Proof.
  induction l as [|x l IH]; simpl; intros Hall; [reflexivity|].
  rewrite (Hall x (or_introl eq_refl)), IH; [reflexivity|].
  intros y Hy. apply Hall. now right.
Qed.

Lemma map_nth_seq (l : list Z) :
  forall pre r : list Z,
    map (fun i => nth i (pre ++ l ++ r) 0%Z)
        (seq (List.length pre) (List.length l))
    = l.
Proof.
  induction l as [|x l IH]; intros pre r; simpl; [reflexivity|].
  rewrite nth_middle. f_equal.
  specialize (IH (pre ++ [x]) r).
  rewrite length_app, <- app_assoc in IH. simpl in IH.
  now rewrite Nat.add_1_r in IH.
Qed.

(** The extents of the axes other than the one that is moved, in their
    order. *)
Lemma other_axes (l1 l2 : list Z) (m : Z) :
  map (fun axis => nth axis (l1 ++ m :: l2) 0%Z)
      (filter (fun n => negb (Nat.eqb n (List.length l1)))
              (seq 0 (List.length (l1 ++ m :: l2))))
  = l1 ++ l2.
Proof.
  rewrite length_app. simpl List.length.
  rewrite seq_app. simpl seq. rewrite filter_app. simpl filter.
  rewrite Nat.eqb_refl. simpl negb. cbv iota.
  rewrite !filter_all.
  - rewrite map_app. f_equal.
    + exact (map_nth_seq l1 [] (m :: l2)).
    + pose proof (map_nth_seq l2 (l1 ++ [m]) []) as H.
      rewrite app_nil_r, <- app_assoc, length_app in H. simpl in H.
      now rewrite Nat.add_1_r in H.
  - intros x Hx. apply in_seq in Hx.
    apply negb_true_iff, Nat.eqb_neq. lia.
  - intros x Hx. apply in_seq in Hx.
    apply negb_true_iff, Nat.eqb_neq. lia.
Qed.

Lemma map_list_insert (A B : Type) (f : A -> B) (x : A) (l : list A) :
  forall i, map f (list_insert i x l) = list_insert i (f x) (map f l).
Proof.
  induction l as [|y l IH]; intros [|i]; simpl; try reflexivity.
  now rewrite IH.
Qed.

Lemma list_insert_perm (A : Type) (x : A) (l : list A) :
  forall i, Permutation (list_insert i x l) (x :: l).
Proof.
  induction l as [|y l IH]; intros [|i]; simpl; try apply Permutation_refl.
  rewrite IH. apply perm_swap.
Qed.

Lemma nth_list_insert (x d : Z) (l : list Z) :
  forall i, i <= List.length l -> nth i (list_insert i x l) d = x.
Proof.
  induction l as [|y l IH]; intros [|i] Hi; simpl in *; try reflexivity;
    [lia|].
  apply IH. lia.
Qed.

Lemma py_max_perm (l l' : list Z) :
  Permutation l l' -> py_max l = py_max l'.
Proof.
  intros Hperm. destruct l as [|x l]; destruct l' as [|x' l'].
  - reflexivity.
  - apply Permutation_nil in Hperm. discriminate.
  - apply Permutation_sym, Permutation_nil in Hperm. discriminate.
  - destruct (@py_max_spec (x :: l) _ eq_refl) as [Hin Hle].
    destruct (@py_max_spec (x' :: l') _ eq_refl) as [Hin' Hle'].
    unfold py_max in *. f_equal. apply Z.le_antisymm.
    + apply Hle'. now apply (Permutation_in _ Hperm).
    + apply Hle. now apply (Permutation_in _ (Permutation_sym Hperm)).
Qed.

Lemma py_min_perm (l l' : list Z) :
  Permutation l l' -> py_min l = py_min l'.
Proof.
  intros Hperm. destruct l as [|x l]; destruct l' as [|x' l'].
  - reflexivity.
  - apply Permutation_nil in Hperm. discriminate.
  - apply Permutation_sym, Permutation_nil in Hperm. discriminate.
  - destruct (@py_min_spec (x :: l) _ eq_refl) as [Hin Hle].
    destruct (@py_min_spec (x' :: l') _ eq_refl) as [Hin' Hle'].
    unfold py_min in *. f_equal. apply Z.le_antisymm.
    + apply Hle. now apply (Permutation_in _ (Permutation_sym Hperm)).
    + apply Hle'. now apply (Permutation_in _ Hperm).
Qed.

(** Arrays of rank above 2 whose shapes hold the same extents have the same
    width and the same height. *)
Lemma size_of_permuted_shape (a b : Image.t) :
  (2 < ndim (Image._data a))%Z ->
  Permutation (shape (Image._data b)) (shape (Image._data a)) ->
  Image.width b = Image.width a /\ Image.height b = Image.height a.
Proof.
  intros Hrank Hperm.
  assert (Hlen : List.length (shape (Image._data b))
                 = List.length (shape (Image._data a)))
    by apply (Permutation_length Hperm).
  destruct (@dimensions_split a)
    as [m [l1 [l2 [Hmin [Hshape [_ [_ Hdims]]]]]]].
  { lia. }
  { intros Hnil. unfold ndim in Hrank. rewrite Hnil in Hrank.
    simpl in Hrank. lia. }
  destruct (@dimensions_split b)
    as [m' [l1' [l2' [Hmin' [Hshape' [_ [_ Hdims']]]]]]].
  { unfold ndim in *. rewrite Hlen. lia. }
  { intros Hnil. unfold ndim in Hrank. rewrite Hnil in Hlen.
    rewrite <- Hlen in Hrank. simpl in Hrank. lia. }
  rewrite (py_min_perm Hperm), Hmin in Hmin'. inversion Hmin'. subst m'.
  assert (Hrest : Permutation (l1' ++ l2') (l1 ++ l2)).
  { apply Permutation_cons_inv with (a := m).
    rewrite (Permutation_middle l1' l2' m), (Permutation_middle l1 l2 m).
    now rewrite <- Hshape, <- Hshape'. }
  unfold Image.width, Image.height. rewrite Hdims, Hdims'. simpl.
  split; [now apply py_max_perm | now apply py_min_perm].
Qed.

Lemma normalize_in_range (axis n : Z) :
  (0 <= axis < n)%Z -> normalize_axis_index axis n = Some axis.
Proof.
  intros H. unfold normalize_axis_index.
  destruct (Z.leb_spec (- n) axis); [|lia].
  destruct (Z.ltb_spec axis n); [|lia].
  destruct (Z.ltb_spec axis 0); [lia | reflexivity].
Qed.

Lemma normalize_bounds (axis n axis' : Z) :
  normalize_axis_index axis n = Some axis' -> (0 <= axis' < n)%Z.
Proof.
  unfold normalize_axis_index.
  destruct (Z.leb_spec (- n) axis) as [Hlo|Hlo]; simpl; [|discriminate].
  destruct (Z.ltb_spec axis n) as [Hhi|Hhi]; [|discriminate].
  destruct (Z.ltb_spec axis 0) as [Hneg|Hneg]; intros Hsome;
    inversion Hsome; lia.
Qed.

(** What [set_color_axis_as] does to a colour image, by the place of the
    first smallest extent of its shape. *)
Lemma color_axis_moved (self : Image.t) (wanted_axis : Z) :
  (2 < ndim (Image._data self))%Z ->
  exists m l1 l2,
    py_min (shape (Image._data self)) = Returned m /\
    shape (Image._data self) = l1 ++ m :: l2 /\
    match normalize_axis_index wanted_axis (ndim (Image._data self)) with
    | None => Image.set_color_axis_as self wanted_axis = None
    | Some axis =>
        exists data,
          Image.set_color_axis_as self wanted_axis
          = Some (Image.set_data self data) /\
          shape data = list_insert (Z.to_nat axis) m (l1 ++ l2) /\
          List.length (buffer data) = Z.to_nat (size_of (shape data))
          \/ (Image.set_color_axis_as self wanted_axis = Some self /\
              data = Image._data self /\
              axis = Z.of_nat (List.length l1))
    end.
Proof.
  intros Hrank.
  assert (Hne : shape (Image._data self) <> []).
  { intros Hnil. unfold ndim in Hrank. rewrite Hnil in Hrank.
    simpl in Hrank. lia. }
  destruct (py_min_member Hne) as [m [Hmin [Hin _]]].
  destruct (index_of_split _ _ Hin) as [l1 [l2 [Hshape [_ Hidx]]]].
  exists m, l1, l2. split; [exact Hmin|]. split; [exact Hshape|].
  assert (Hndim : ndim (Image._data self)
                  = Z.of_nat (List.length l1 + S (List.length l2))).
  { unfold ndim. rewrite Hshape, length_app. reflexivity. }
  unfold Image.set_color_axis_as.
  destruct (Z.ltb_spec 2 (ndim (Image._data self))) as [_|H]; [|lia].
  rewrite Hmin, Hidx.
  destruct (normalize_axis_index wanted_axis (ndim (Image._data self)))
    as [axis|] eqn:Hnorm.
  - destruct (Z.eqb_spec (Z.of_nat (List.length l1)) wanted_axis)
      as [Heq|Hneq]; simpl negb; cbv iota.
    + exists (Image._data self). right. split; [reflexivity|].
      split; [reflexivity|].
      rewrite <- Heq, normalize_in_range in Hnorm by lia.
      now inversion Hnorm.
    + unfold moveaxis.
      rewrite (@normalize_in_range (Z.of_nat (List.length l1))) by lia.
      rewrite Hnorm. eexists. left. split; [reflexivity|].
      unfold transpose. cbn [shape buffer]. split.
      * rewrite Nat2Z.id, map_list_insert, Hshape, other_axes.
        now rewrite nth_middle.
      * now rewrite length_map, length_seq.
  - destruct (Z.eqb_spec (Z.of_nat (List.length l1)) wanted_axis)
      as [Heq|Hneq]; simpl negb; cbv iota.
    + rewrite <- Heq, normalize_in_range in Hnorm by lia. discriminate.
    + unfold moveaxis.
      rewrite (@normalize_in_range (Z.of_nat (List.length l1))) by lia.
      now rewrite Hnorm.
Qed.

(** X19.  On a colour image and for an axis in [-ndim .. ndim-1],
    [set_color_axis_as] returns an image whose shape has the smallest
    extent at that axis, counted from the end when it is negative, and
    otherwise holds the same extents; its width and height, and everything
    but its array, are those of the image before. *)
Theorem set_color_axis_as_places_smallest_extent
    (self : Image.t) (wanted_axis axis m : Z) :
  (2 < ndim (Image._data self))%Z ->
  py_min (shape (Image._data self)) = Returned m ->
  normalize_axis_index wanted_axis (ndim (Image._data self)) = Some axis ->
  exists data,
    Image.set_color_axis_as self wanted_axis
    = Some (Image.set_data self data) /\
    nth (Z.to_nat axis) (shape data) 0%Z = m /\
    Permutation (shape data) (shape (Image._data self)) /\
    Image.width (Image.set_data self data) = Image.width self /\
    Image.height (Image.set_data self data) = Image.height self.
Proof.
  intros Hrank Hmin Hnorm.
  destruct (color_axis_moved self wanted_axis Hrank)
    as [m' [l1 [l2 [Hmin' [Hshape Hcall]]]]].
  rewrite Hmin in Hmin'. inversion Hmin'. subst m'. clear Hmin'.
  rewrite Hnorm in Hcall.
  destruct Hcall as [data [[Hcall [Hdata _]] | [Hcall [Hdata Haxis]]]].
  - assert (Hperm : Permutation (shape data) (shape (Image._data self))).
    { rewrite Hdata, Hshape, list_insert_perm. apply Permutation_middle. }
    exists data. split; [exact Hcall|]. split.
    + rewrite Hdata. apply nth_list_insert.
      apply normalize_bounds in Hnorm. unfold ndim in Hnorm.
      rewrite Hshape, !length_app in *. simpl in Hnorm. lia.
    + split; [exact Hperm|].
      now apply size_of_permuted_shape.
  - exists data. subst data. destruct self as [d p o dst]. simpl in *.
    split; [exact Hcall|]. split.
    + rewrite Haxis, Nat2Z.id, Hshape. apply nth_middle.
    + now repeat split.
Qed.

Lemma set_color_axis_as_places_smallest_extent_witness :
  exists data,
    Image.set_color_axis_as rgb_tile (-3)
    = Some (Image.set_data rgb_tile data) /\
    nth (Z.to_nat 0) (shape data) 0%Z = 3%Z /\
    Permutation (shape data) (shape (Image._data rgb_tile)) /\
    Image.width (Image.set_data rgb_tile data) = Image.width rgb_tile /\
    Image.height (Image.set_data rgb_tile data) = Image.height rgb_tile.
Proof.
  apply (@set_color_axis_as_places_smallest_extent rgb_tile (-3) 0 3);
    reflexivity.
Defined.

(** X20.  [set_color_axis_as] raises numpy's [AxisError] exactly when the image
    is a colour image and the axis is outside [-ndim .. ndim-1]; an image
    of rank 2 or less is returned as it is, whatever the axis. *)
Theorem set_color_axis_as_axis_error (self : Image.t) (wanted_axis : Z) :
  (Image.set_color_axis_as self wanted_axis = None <->
   (2 < ndim (Image._data self))%Z /\
   normalize_axis_index wanted_axis (ndim (Image._data self)) = None)
  /\
  (Image.is_color self = false ->
   Image.set_color_axis_as self wanted_axis = Some self).
Proof.
  assert (Hflat : Image.is_color self = false ->
                  Image.set_color_axis_as self wanted_axis = Some self).
  { unfold Image.is_color, Image.set_color_axis_as. now intros ->. }
  split; [|exact Hflat].
  destruct (Z.ltb_spec 2 (ndim (Image._data self))) as [Hrank|Hrank].
  - destruct (color_axis_moved self wanted_axis Hrank)
      as [m [l1 [l2 [_ [_ Hcall]]]]].
    destruct (normalize_axis_index wanted_axis (ndim (Image._data self)))
      as [axis|].
    + destruct Hcall as [data [[Hcall _] | [Hcall _]]]; rewrite Hcall;
        (split; [discriminate | intros [_ Hnone]; discriminate]).
    + now split.
  - rewrite Hflat.
    + split; [discriminate | intros [H _]; lia].
    + unfold Image.is_color. now apply Z.ltb_ge.
Qed.

Lemma set_color_axis_as_axis_error_witness :
  Image.set_color_axis_as rgb_tile 3 = None /\
  Image.set_color_axis_as portrait 3 = Some portrait.
Proof.
  destruct (set_color_axis_as_axis_error rgb_tile 3) as [Hnone _].
  destruct (set_color_axis_as_axis_error portrait 3) as [_ Hflat].
  split; [apply Hnone; now split | apply Hflat; reflexivity].
Defined.

(** ** Dispatch on the extension *)

(** X24.  A file [stem.ext] whose name is not ignored, in whatever directory,
    goes to the FITS reader when [.ext] in lower case is [.fit] or [.fits]
    and to the RAW reader otherwise: only the part of the name behind its
    last dot counts, and the case of its letters does not. *)
Theorem read_image_dispatches_on_extension
    (w : World) (directory stem ext : string) (s : State) :
  contains "/" stem = false ->
  contains "/" ext = false ->
  contains "." ext = false ->
  stem <> "" ->
  ext <> "" ->
  ignore_loop _IGNORED_FILENAME_START_PATTERNS (stem ++ String "." ext)
  = false ->
  let path :=
    Path.of_string (directory ++ String "/" (stem ++ String "." ext)) in
  reader_calls (snd (read_image w path s))
  = reader_calls s
    ++ [(if str_in (lower (String "." ext)) [".fit"; ".fits"]
         then FitReader else RawReader, path)].
Proof.
  intros Hstem Hext Hdot Hstem_ne Hext_ne Hkept path.
  destruct (name_and_suffix_of_file directory Hstem Hext Hdot
              Hstem_ne Hext_ne) as [Hname Hsuffix].
  fold path in Hname, Hsuffix.
  destruct (@read_image_frame w path s) as [Hcalls _].
  { now rewrite Hname. }
  rewrite Hcalls. unfold reader_of. now rewrite Hsuffix.
Qed.

Lemma read_image_dispatches_on_extension_witness :
  reader_calls
    (snd (read_image dslr_world
            (Path.of_string "/scan/.cache/m31.stack.FITS") initial))
  = [(FitReader, Path.of_string "/scan/.cache/m31.stack.FITS")].
Proof.
  apply (@read_image_dispatches_on_extension dslr_world
           "/scan/.cache" "m31.stack" "FITS" initial);
    try reflexivity; discriminate.
Defined.
